(** * markdown2html.py: the line translator and the block accumulator

    A shallow embedding of [src/markdown2html.py].  A Python [str] is a
    list of code points, a [bytes] value a list of octets.  The two
    exceptions the translated code can raise ([ValueError] from tuple
    unpacking, [UnicodeEncodeError] from [str.encode]) are the two
    constructors of [exn]; code that can raise returns a [result]. *)

From Stdlib Require Import String Ascii DecimalString.
From Stdlib Require Import List Arith NArith Lia Bool.
From Equations Require Import Equations.
Import ListNotations.

Local Open Scope N_scope.
Local Open Scope list_scope.

(** ** Python values *)

Definition char := N.
Definition str := list char.

(** An ASCII literal of the source as a [str]. *)
Definition py (s : string) : str := map N_of_ascii (list_ascii_of_string s).
Arguments py s%_string.

Definition chr (a : ascii) : char := N_of_ascii a.
Arguments chr a%_char.

Inductive exn := ValueError | UnicodeEncodeError.

Inductive result (A : Type) : Type :=
| Ok (a : A)
| Raise (e : exn).
Arguments Ok {A} a.
Arguments Raise {A} e.

Definition bind {A B} (r : result A) (k : A -> result B) : result B :=
  match r with
  | Ok a => k a
  | Raise e => Raise e
  end.

Notation "x <- r ;; k" := (bind r (fun x => k))
  (at level 61, r at next level, right associativity).

(** What [process_markdown_line] returns: a bare [str] or a 2-tuple of
    [str]s. *)
Inductive pyval :=
| PStr (s : str)
| PTuple (a b : str).

Definition fragment_of (v : pyval) : str :=
  match v with PStr s => s | PTuple a _ => a end.

Definition tag_of (v : pyval) : option str :=
  match v with PStr _ => None | PTuple _ t => Some t end.

Definition str_eqb (a b : str) : bool :=
  if list_eq_dec N.eq_dec a b then true else false.

(** ** str.strip, str.rstrip, str.replace *)

(** The code points Python's [str.strip] family removes. *)
Definition isspace (c : char) : bool :=
  ((0x09 <=? c) && (c <=? 0x0D)) || ((0x1C <=? c) && (c <=? 0x20))
  || (c =? 0x85) || (c =? 0xA0) || (c =? 0x1680)
  || ((0x2000 <=? c) && (c <=? 0x200A))
  || (c =? 0x2028) || (c =? 0x2029) || (c =? 0x202F) || (c =? 0x205F)
  || (c =? 0x3000).

Fixpoint lstrip (s : str) : str :=
  match s with
  | [] => []
  | c :: s' => if isspace c then lstrip s' else s
  end.

Fixpoint rstrip (s : str) : str :=
  match s with
  | [] => []
  | c :: s' =>
      match rstrip s' with
      | [] => if isspace c then [] else [c]
      | r => c :: r
      end
  end.

Definition strip (s : str) : str := lstrip (rstrip s).

(** Python truth of a [str]: non-empty. *)
Definition truthy (s : str) : bool :=
  match s with [] => false | _ => true end.

(** [text.replace(c, '')] for a one-character [c]. *)
Definition replace_char_empty (c : char) (text : str) : str :=
  filter (fun x => negb (x =? c)) text.

(** ** hashlib.md5 and str.encode *)

Module Hashlib.

Definition byte := N.
Definition word := N.

Definition wrap (x : N) : word := x mod 2 ^ 32.
Definition wadd (x y : word) : word := wrap (x + y).
Definition wnot (x : word) : word := N.lxor x 0xFFFFFFFF.
Definition rotl (x : word) (c : N) : word :=
  N.lor (wrap (N.shiftl x c)) (N.shiftr x (32 - c)).

Definition K : list word :=
  [ 0xd76aa478; 0xe8c7b756; 0x242070db; 0xc1bdceee;
    0xf57c0faf; 0x4787c62a; 0xa8304613; 0xfd469501;
    0x698098d8; 0x8b44f7af; 0xffff5bb1; 0x895cd7be;
    0x6b901122; 0xfd987193; 0xa679438e; 0x49b40821;
    0xf61e2562; 0xc040b340; 0x265e5a51; 0xe9b6c7aa;
    0xd62f105d; 0x02441453; 0xd8a1e681; 0xe7d3fbc8;
    0x21e1cde6; 0xc33707d6; 0xf4d50d87; 0x455a14ed;
    0xa9e3e905; 0xfcefa3f8; 0x676f02d9; 0x8d2a4c8a;
    0xfffa3942; 0x8771f681; 0x6d9d6122; 0xfde5380c;
    0xa4beea44; 0x4bdecfa9; 0xf6bb4b60; 0xbebfbc70;
    0x289b7ec6; 0xeaa127fa; 0xd4ef3085; 0x04881d05;
    0xd9d4d039; 0xe6db99e5; 0x1fa27cf8; 0xc4ac5665;
    0xf4292244; 0x432aff97; 0xab9423a7; 0xfc93a039;
    0x655b59c3; 0x8f0ccc92; 0xffeff47d; 0x85845dd1;
    0x6fa87e4f; 0xfe2ce6e0; 0xa3014314; 0x4e0811a1;
    0xf7537e82; 0xbd3af235; 0x2ad7d2bb; 0xeb86d391 ].

Definition shifts : list N :=
  [ 7; 12; 17; 22; 7; 12; 17; 22; 7; 12; 17; 22; 7; 12; 17; 22;
    5; 9; 14; 20; 5; 9; 14; 20; 5; 9; 14; 20; 5; 9; 14; 20;
    4; 11; 16; 23; 4; 11; 16; 23; 4; 11; 16; 23; 4; 11; 16; 23;
    6; 10; 15; 21; 6; 10; 15; 21; 6; 10; 15; 21; 6; 10; 15; 21 ].

Record state := mk_state { sa : word; sb : word; sc : word; sd : word }.

Definition init : state :=
  mk_state 0x67452301 0xefcdab89 0x98badcfe 0x10325476.

(** Four octets, least significant first, as one word; and back. *)
Definition word_of_le (bs : list byte) : word :=
  fold_right (fun b acc => b + 256 * acc) 0 bs.

Definition le_bytes (n : nat) (x : N) : list byte :=
  map (fun i => (x / 256 ^ N.of_nat i) mod 256) (seq 0 n).

Fixpoint chunks (fuel : nat) (n : nat) {A} (l : list A) : list (list A) :=
  match fuel with
  | O => []
  | S fuel' =>
      match l with
      | [] => []
      | _ => firstn n l :: chunks fuel' n (skipn n l)
      end
  end.

(** One of the 64 operations of a round on the block [m] (16 words). *)
Definition op (m : list word) (st : state) (i : nat) : state :=
  let '(mk_state a b c d) := st in
  let '(f, g) :=
    if (i <? 16)%nat then
      (N.lor (N.land b c) (N.land (wnot b) d), i)
    else if (i <? 32)%nat then
      (N.lor (N.land d b) (N.land (wnot d) c), ((5 * i + 1) mod 16)%nat)
    else if (i <? 48)%nat then
      (N.lxor b (N.lxor c d), ((3 * i + 5) mod 16)%nat)
    else
      (N.lxor c (N.lor b (wnot d)), ((7 * i) mod 16)%nat) in
  let f' := wadd (wadd (wadd f a) (nth i K 0)) (nth g m 0) in
  mk_state d (wadd b (rotl f' (nth i shifts 0))) b c.

Definition block (st : state) (bytes64 : list byte) : state :=
  let m := map word_of_le (chunks 16 4 bytes64) in
  let '(mk_state a b c d) := fold_left (op m) (seq 0 64) st in
  mk_state (wadd (sa st) a) (wadd (sb st) b)
           (wadd (sc st) c) (wadd (sd st) d).

(** The message followed by 0x80, zeros up to 56 modulo 64, and the bit
    length as 8 octets, least significant first. *)
Definition pad (msg : list byte) : list byte :=
  let len := N.of_nat (length msg) in
  let zeros := N.to_nat ((119 - len mod 64) mod 64) in
  msg ++ [0x80] ++ repeat 0 zeros ++ le_bytes 8 ((8 * len) mod 2 ^ 64).

Definition digest (msg : list byte) : list byte :=
  let p := pad msg in
  let st := fold_left block (chunks (length p) 64 p) init in
  le_bytes 4 (sa st) ++ le_bytes 4 (sb st)
    ++ le_bytes 4 (sc st) ++ le_bytes 4 (sd st).

Definition hexdigit (d : N) : char :=
  if d <? 10 then 48 + d else 87 + d.

Definition hex_of_byte (b : byte) : str :=
  [hexdigit (b / 16); hexdigit (b mod 16)].

Definition hexdigest (msg : list byte) : str :=
  flat_map hex_of_byte (digest msg).

End Hashlib.

(** [str.encode()]: UTF-8, strict.  A surrogate code point cannot be
    encoded. *)
Definition encode_char (c : char) : result (list Hashlib.byte) :=
  if c <? 0x80 then Ok [c]
  else if c <? 0x800 then Ok [0xC0 + c / 64; 0x80 + c mod 64]
  else if c <? 0x10000 then
    if (0xD800 <=? c) && (c <=? 0xDFFF) then Raise UnicodeEncodeError
    else Ok [0xE0 + c / 4096; 0x80 + (c / 64) mod 64; 0x80 + c mod 64]
  else if c <? 0x110000 then
    Ok [0xF0 + c / 262144; 0x80 + (c / 4096) mod 64;
        0x80 + (c / 64) mod 64; 0x80 + c mod 64]
  else Raise UnicodeEncodeError.

Fixpoint encode (text : str) : result (list Hashlib.byte) :=
  match text with
  | [] => Ok []
  | c :: text' =>
      bs <- encode_char c ;;
      rest <- encode text' ;;
      Ok (bs ++ rest)
  end.

(** ** The helpers of the source *)

Definition convert_to_md5 (text : str) : result str :=
  bs <- encode text ;;
  Ok (Hashlib.hexdigest bs).

Definition remove_c_from_text (text : str) : str :=
  replace_char_empty (chr "C") (replace_char_empty (chr "c") text).

(** ** The regular expressions of the source

    The module [re] is not part of the repository; each of the seven
    patterns the source uses is given by the matcher it stands for. *)

Module Re.

Definition newline : char := 10.

(** [.] matches any code point but a line feed. *)
Definition dot (c : char) : bool := negb (c =? newline).

(** A greedy dot-star group at the end of a pattern: the longest run
    of [.]. *)
Fixpoint dot_star (s : str) : str :=
  match s with
  | [] => []
  | c :: s' => if dot c then c :: dot_star s' else []
  end.

(** [k] copies of [c] in front of [s]: what follows them. *)
Fixpoint strip_run (c : char) (k : nat) (s : str) : option str :=
  match k with
  | O => Some s
  | S k' =>
      match s with
      | x :: s' => if x =? c then strip_run c k' s' else None
      | [] => None
      end
  end.

(** The heading pattern tried with [k] hashes for its first group, then
    with fewer (the quantifier is greedy and backtracks), down to one;
    a space must follow, the second group is the dot-star after it. *)
Fixpoint heading_try (k : nat) (line : str) : option (str * str) :=
  match k with
  | O => None
  | S k' =>
      match strip_run (chr "#") k line with
      | Some (c :: rest) =>
          if c =? chr " " then Some (repeat (chr "#") k, dot_star rest)
          else heading_try k' line
      | _ => heading_try k' line
      end
  end.

(** [re.match] of the heading pattern (one to six hashes, a space, a
    dot-star group) on [line]: groups 1 and 2. *)
Definition match_heading (line : str) : option (str * str) :=
  heading_try 6 line.

(** [re.match] of a list pattern (the literal [c], a space, a dot-star
    group) on [line]: the group. *)
Definition match_item (c : char) (line : str) : option str :=
  match line with
  | x :: y :: rest =>
      if (x =? c) && (y =? chr " ") then Some (dot_star rest) else None
  | _ => None
  end.

(** A lazy dot-star group closed by the pair [c1 c2], from the start of
    [s]: the shortest group and what follows the closing pair. *)
Fixpoint lazy_until (c1 c2 : char) (s : str) : option (str * str) :=
  match s with
  | a :: s' =>
      match s' with
      | b :: rest =>
          if (a =? c1) && (b =? c2) then Some ([], rest)
          else if dot a then
            match lazy_until c1 c2 s' with
            | Some (x, r) => Some (a :: x, r)
            | None => None
            end
          else None
      | [] => None
      end
  | [] => None
  end.

(** The pair [o1 o2], a lazy dot-star group and the pair [c1 c2], at the
    start of [s]. *)
Definition match_pair (o1 o2 c1 c2 : char) (s : str) : option (str * str) :=
  match s with
  | a :: b :: t =>
      if (a =? o1) && (b =? o2) then lazy_until c1 c2 t else None
  | _ => None
  end.

Definition inspect {A} (a : A) : {b : A | a = b} := exist _ a eq_refl.

(** [re.sub] of such a pair pattern: from left to right, a match is
    replaced by [repl] of its group and the scan goes on behind it;
    where none starts the code point is copied. *)
Equations? sub (o1 o2 c1 c2 : char) (repl : str -> result str) (s : str)
  : result str by wf (length s) lt :=
  sub o1 o2 c1 c2 repl [] := Ok [];
  sub o1 o2 c1 c2 repl (a :: s')
    with inspect (match_pair o1 o2 c1 c2 (a :: s')) := {
    | exist _ (Some (x, rest)) e :=
        match repl x, sub o1 o2 c1 c2 repl rest with
        | Ok y, Ok out => Ok (y ++ out)
        | Raise e, _ => Raise e
        | _, Raise e => Raise e
        end;
    | exist _ None _ :=
        match sub o1 o2 c1 c2 repl s' with
        | Ok out => Ok (a :: out)
        | Raise e => Raise e
        end }.
Proof.
  change (match_pair o1 o2 c1 c2 (a :: s') = Some (x, rest)) in e.
  clear sub. destruct s' as [|b t]; [discriminate e|]. simpl in e.
  destruct ((a =? o1) && (b =? o2)); [|discriminate e].
  enough (length rest < S (length t))%nat by (simpl; lia).
  revert x e. induction t as [|u t IH]; intros x e; [discriminate e|].
  simpl in e. destruct t as [|v t']; [discriminate e|].
  destruct ((u =? c1) && (v =? c2)).
  - injection e as _ <-. simpl. lia.
  - destruct (dot u); [|discriminate e].
    destruct (lazy_until c1 c2 (v :: t')) as [[x' r']|]; [|discriminate e].
    injection e as _ <-. specialize (IH _ eq_refl). simpl in *. lia.
Qed.

End Re.

(** ** process_markdown_line *)

(** [if m:] for the result of [re.match]. *)
Definition truthy_match {A} (m : option A) : bool :=
  match m with Some _ => true | None => false end.

(** An f-string field holding an [int]. *)
Definition format_int (n : nat) : str :=
  py (NilEmpty.string_of_uint (Nat.to_uint n)).

Definition bold (x : str) : result str := Ok (py "<b>" ++ x ++ py "</b>").
Definition emphasis (x : str) : result str := Ok (py "<em>" ++ x ++ py "</em>").

(** The four [re.sub] calls, in the order of the source. *)
Definition substitute (line : str) : result str :=
  line <- Re.sub (chr "*") (chr "*") (chr "*") (chr "*") bold line ;;
  line <- Re.sub (chr "_") (chr "_") (chr "_") (chr "_") emphasis line ;;
  line <- Re.sub (chr "[") (chr "[") (chr "]") (chr "]") convert_to_md5 line ;;
  Re.sub (chr "(") (chr "(") (chr ")") (chr ")")
    (fun x => Ok (remove_c_from_text x)) line.

(** The last three lines of the function, on the substituted line. *)
Definition paragraph (line : str) : pyval :=
  if negb (truthy (strip line)) then PTuple [] (py "newline")
  else PStr line.

Definition process_markdown_line (line : str) : result pyval :=
  match Re.match_heading line with
  | Some (group1, group2) =>
      let heading_level := length group1 in
      let content := group2 in
      Ok (PStr (py "<h" ++ format_int heading_level ++ py ">" ++ content
                ++ py "</h" ++ format_int heading_level ++ py ">"))
  | None =>
      if truthy_match (Re.match_item (chr "-") line) then
        Ok (PTuple (py "<li>" ++ skipn 2 line ++ py "</li>") (py "ul"))
      else if truthy_match (Re.match_item (chr "*") line) then
        Ok (PTuple (py "<li>" ++ skipn 2 line ++ py "</li>") (py "ol"))
      else
        line <- substitute line ;;
        Ok (paragraph line)
  end.

(** ** main: the loop over the lines and what is written *)

(** [html_lines] and [list_type] of [main]. *)
Record acc := mk_acc { html_lines : list str; list_type : option str }.

(** [a, b = v]: a tuple of two gives its components, a [str] of length two
    its two characters, any other [str] raises. *)
Definition unpack2 (v : pyval) : result (str * str) :=
  match v with
  | PTuple a b => Ok (a, b)
  | PStr [a; b] => Ok ([a], [b])
  | PStr _ => Raise ValueError
  end.

(** [if list_type:] *)
Definition truthy_opt (o : option str) : bool :=
  match o with Some s => truthy s | None => false end.

(** [list_type != name] *)
Definition differs (o : option str) (name : str) : bool :=
  match o with Some s => negb (str_eqb s name) | None => true end.

(** [html_lines.append(f"</{list_type}>")] under [if list_type:]. *)
Definition close_if_open (html : list str) (o : option str) : list str :=
  match o with
  | Some s => if truthy s then html ++ [py "</" ++ s ++ py ">"] else html
  | None => html
  end.

(** The [if]/[elif] chain of the loop body. *)
Definition dispatch (st : acc) (html_line tag_type : str) : acc :=
  let '(mk_acc html lt) := st in
  if str_eqb tag_type (py "ul") then
    mk_acc (if differs lt (py "ul")
            then close_if_open html lt ++ [py "<ul>"] else html)
           (Some (py "ul"))
  else if str_eqb tag_type (py "ol") then
    mk_acc (if differs lt (py "ol")
            then close_if_open html lt ++ [py "<ol>"] else html)
           (Some (py "ol"))
  else if str_eqb tag_type (py "newline") then
    mk_acc (close_if_open html lt ++ [py "<p>"])
           (if truthy_opt lt then None else lt)
  else
    mk_acc (close_if_open html lt ++ [html_line])
           (if truthy_opt lt then None else lt).

Definition loop_body (st : acc) (line : str) : result acc :=
  let line := rstrip line in
  v <- process_markdown_line line ;;
  p <- unpack2 v ;;
  Ok (dispatch st (fst p) (snd p)).

Fixpoint loop (lines : list str) (st : acc) : result acc :=
  match lines with
  | [] => Ok st
  | line :: lines' => st' <- loop_body st line ;; loop lines' st'
  end.

Definition init_acc : acc := mk_acc [] None.

(** The [if list_type:] after the loop. *)
Definition finish (st : acc) : list str :=
  close_if_open (html_lines st) (list_type st).

(** ['\n'.join(html_lines)] *)
Fixpoint join_lines (l : list str) : str :=
  match l with
  | [] => []
  | [x] => x
  | x :: l' => x ++ Re.newline :: join_lines l'
  end.

(** [main] from the lines read to the text written. *)
Definition main (lines : list str) : result str :=
  st <- loop lines init_acc ;;
  Ok (join_lines (finish st)).

(** * The words of the specification

    The notions the statements below are written with: what the heading
    rule leaves out, what substituting a pair pattern means, what a
    correctly bracketed output is. *)

(** A code point UTF-8 encodes: not a surrogate, and below 0x110000.  The
    lines read from a file hold no other. *)
Definition scalar (c : char) : bool :=
  (c <? 0xD800) || ((0xDFFF <? c) && (c <? 0x110000)).

(** The text does not start with a hash: it ends a run of hashes. *)
Definition hash_free_head (r : str) : Prop := forall r', r <> chr "#" :: r'.

(** ** Substitution of a pair pattern

    "Every occurrence of the pair, a span X and the closing pair, X the
    shortest span; each may match multiple times per line, non-overlapping,
    leftmost-first": [Replaced] relates a line to its rewriting. *)

Section PairPattern.

Variables o1 o2 c1 c2 : char.
Variable repl : str -> result str.

(** [X] holds no line feed. *)
Definition span (X : str) : Prop := forallb Re.dot X = true.

(** An occurrence of the pattern starts the text. *)
Definition occurs_at_head (s : str) : Prop :=
  exists X rest, s = o1 :: o2 :: X ++ c1 :: c2 :: rest /\ span X.

(** No shorter span of [t] is followed by the closing pair. *)
Definition shortest (X : str) (t : str) : Prop :=
  forall X' rest', t = X' ++ c1 :: c2 :: rest' ->
                   (length X <= length X')%nat.

Inductive Replaced : str -> str -> Prop :=
| Replaced_end : Replaced [] []
| Replaced_occurrence X rest y out :
    span X ->
    shortest X (X ++ c1 :: c2 :: rest) ->
    repl X = Ok y ->
    Replaced rest out ->
    Replaced (o1 :: o2 :: X ++ c1 :: c2 :: rest) (y ++ out)
| Replaced_copy a s out :
    ~ occurs_at_head (a :: s) ->
    Replaced s out ->
    Replaced (a :: s) (a :: out).

(** An occurrence of the pattern anywhere in the text. *)
Definition occurs (s : str) : Prop :=
  exists before tail, s = before ++ tail /\ occurs_at_head tail.

End PairPattern.

(** "X with every c and every C deleted". *)
Definition delete_c (X : str) : str :=
  filter (fun ch => negb ((ch =? chr "c") || (ch =? chr "C"))) X.

(** One of the digits 0 to 9 and a to f. *)
Definition lower_hex (c : char) : bool :=
  ((48 <=? c) && (c <=? 57)) || ((97 <=? c) && (c <=? 102)).

(** A decision procedure for [occurs]: some tail of the text starts with a
    match of the pattern. *)
Fixpoint has_match (o1 o2 c1 c2 : char) (s : str) : bool :=
  match s with
  | [] => false
  | a :: s' =>
      truthy_match (Re.match_pair o1 o2 c1 c2 s) || has_match o1 o2 c1 c2 s'
  end.

(** ** Bracketing of the output *)

Inductive list_block := UL | OL.

Definition block_name (b : list_block) : str :=
  match b with UL => py "ul" | OL => py "ol" end.

Definition list_type_of (o : option list_block) : option str :=
  option_map block_name o.

(** A list item line starts with <li>. *)
Definition is_item (l : str) : bool := str_eqb (firstn 4 l) (py "<li>").

(** One output line read with the block [o] open: the block open after it,
    or [None] when the line is not allowed there.  A list opens only when
    none is open, closes only by its own tag; an item stands inside a list,
    any other line outside. *)
Definition scan_line (o : option list_block) (l : str)
  : option (option list_block) :=
  if str_eqb l (py "<ul>") then
    match o with None => Some (Some UL) | Some _ => None end
  else if str_eqb l (py "<ol>") then
    match o with None => Some (Some OL) | Some _ => None end
  else if str_eqb l (py "</ul>") then
    match o with Some UL => Some None | _ => None end
  else if str_eqb l (py "</ol>") then
    match o with Some OL => Some None | _ => None end
  else if is_item l then
    match o with Some b => Some (Some b) | None => None end
  else
    match o with None => Some None | Some _ => None end.

Fixpoint scan (o : option list_block) (out : list str)
  : option (option list_block) :=
  match out with
  | [] => Some o
  | l :: out' =>
      match scan_line o l with
      | Some o' => scan o' out'
      | None => None
      end
  end.

(** The whole output is correctly bracketed and no list is left open. *)
Definition bracketed (out : list str) : Prop := scan None out = Some None.

(** The lines appended so far are correctly bracketed and [list_type] names
    the list they leave open. *)
Definition invariant (st : acc) : Prop :=
  exists o, list_type st = list_type_of o
            /\ scan None (html_lines st) = Some o.

(** A fragment that is a line of its own outside the lists. *)
Definition plain (frag : str) : Prop := scan_line None frag = Some None.

(** * Properties *)

(** ** The library models against known values *)

Example md5_empty :
  convert_to_md5 [] = Ok (py "d41d8cd98f00b204e9800998ecf8427e").
Proof. vm_compute. reflexivity. Qed.

Example md5_abc :
  convert_to_md5 (py "abc") = Ok (py "900150983cd24fb0d6963f7d28e17f72").
Proof. vm_compute. reflexivity. Qed.

Example md5_fox :
  convert_to_md5 (py "The quick brown fox jumps over the lazy dog")
  = Ok (py "9e107d9d372bb6826bd81d3542a419d6").
Proof. vm_compute. reflexivity. Qed.

Example md5_55 :
  convert_to_md5 (repeat (chr "x") 55)
  = Ok (py "04364420e25c512fd958a70738aa8f72").
Proof. vm_compute. reflexivity. Qed.

Example md5_56 :
  convert_to_md5 (repeat (chr "x") 56)
  = Ok (py "668a72d5ba17f08e62dabcafad6db14b").
Proof. vm_compute. reflexivity. Qed.

Example md5_64 :
  convert_to_md5 (repeat (chr "x") 64)
  = Ok (py "c1bb4f81d892b2d57947682aeb252456").
Proof. vm_compute. reflexivity. Qed.

Example md5_utf8 :
  convert_to_md5 [0x1F600; 0x20AC] = Ok (py "b03aa768531bae635705337ecadc64de").
Proof. vm_compute. reflexivity. Qed.

Example md5_e_acute :
  convert_to_md5 [0xE9] = Ok (py "66ddcd97cfdeabb2f6fb8a999b4bc76f").
Proof. vm_compute. reflexivity. Qed.

Example sub_bold_ex :
  Re.sub (chr "*") (chr "*") (chr "*") (chr "*")
    (fun x => Ok (py "<b>" ++ x ++ py "</b>")) (py "x ***a** y **b")
  = Ok (py "x <b>*a</b> y **b").
Proof. vm_compute. reflexivity. Qed.

(** ** The scan of [re.sub] *)

Lemma lazy_until_length c1 c2 s x r :
  Re.lazy_until c1 c2 s = Some (x, r) ->
  (length r + length x + 2 = length s)%nat.
Proof.
  revert x r. induction s as [|a s IH]; intros x r; simpl; [discriminate|].
  destruct s as [|b rest]; [discriminate|].
  destruct ((a =? c1) && (b =? c2)).
  - intros [= <- <-]. simpl. lia.
  - destruct (Re.dot a); [|discriminate].
    destruct (Re.lazy_until c1 c2 (b :: rest)) as [[x' r']|]; [|discriminate].
    intros [= <- <-]. specialize (IH _ _ eq_refl). simpl in *. lia.
Qed.

Lemma match_pair_length o1 o2 c1 c2 s x r :
  Re.match_pair o1 o2 c1 c2 s = Some (x, r) ->
  (length r + length x + 4 = length s)%nat.
Proof.
  destruct s as [|a [|b t]]; simpl; try discriminate.
  destruct ((a =? o1) && (b =? o2)); [|discriminate].
  intros H. apply lazy_until_length in H. lia.
Qed.

Lemma sub_cons o1 o2 c1 c2 repl a s' :
  Re.sub o1 o2 c1 c2 repl (a :: s') =
  match Re.match_pair o1 o2 c1 c2 (a :: s') with
  | Some (x, rest) =>
      match repl x with
      | Ok y =>
          match Re.sub o1 o2 c1 c2 repl rest with
          | Ok out => Ok (y ++ out)
          | Raise e => Raise e
          end
      | Raise e => Raise e
      end
  | None =>
      match Re.sub o1 o2 c1 c2 repl s' with
      | Ok out => Ok (a :: out)
      | Raise e => Raise e
      end
  end.
Proof.
  rewrite Re.sub_equation_2.
  change (Re.match_pair o1 o2 c1 c2 (a :: s')) with
    (proj1_sig (Re.inspect (Re.match_pair o1 o2 c1 c2 (a :: s')))) at 2.
  destruct (Re.inspect (Re.match_pair o1 o2 c1 c2 (a :: s')))
    as [[[x rest]|] e]; reflexivity.
Qed.

(** ** Literals, equality of strings *)

Lemma str_eqb_refl s : str_eqb s s = true.
Proof. unfold str_eqb. destruct (list_eq_dec N.eq_dec s s); congruence. Qed.

Lemma str_eqb_neq a b : a <> b -> str_eqb a b = false.
Proof. unfold str_eqb. destruct (list_eq_dec N.eq_dec a b); congruence. Qed.

Lemma str_eqb_length a b : length a <> length b -> str_eqb a b = false.
Proof. intros H. apply str_eqb_neq. intros ->. auto. Qed.

Lemma bind_ok {A B} (r : result A) (k : A -> result B) b :
  bind r k = Ok b <-> exists a, r = Ok a /\ k a = Ok b.
Proof.
  destruct r as [a|e]; simpl; split.
  - eauto.
  - intros (a' & [= ->] & H). exact H.
  - discriminate.
  - intros (a' & [=] & _).
Qed.

(** ** The heading pattern *)

Section Heading.

Local Abbreviation hash := (chr "#").
Local Abbreviation space := (chr " ").

Lemma strip_run_repeat c k n r :
  (k <= n)%nat ->
  Re.strip_run c k (repeat c n ++ r) = Some (repeat c (n - k) ++ r).
Proof.
  revert n. induction k as [|k IH]; intros n Hk; simpl.
  - now rewrite Nat.sub_0_r.
  - destruct n as [|n]; [lia|]. simpl. rewrite N.eqb_refl.
    apply IH. lia.
Qed.

Lemma strip_run_short c k n r :
  (n < k)%nat -> (forall r', r <> c :: r') ->
  Re.strip_run c k (repeat c n ++ r) = None.
Proof.
  revert n. induction k as [|k IH]; intros n Hk Hr; [lia|].
  destruct n as [|n]; simpl.
  - destruct r as [|x r']; [reflexivity|].
    destruct (N.eqb_spec x c) as [->|]; [|reflexivity].
    now destruct (Hr r').
  - rewrite N.eqb_refl. apply IH; [lia|assumption].
Qed.

Lemma heading_try_miss k n r :
  hash_free_head r ->
  (k < n)%nat \/ n = 0%nat \/ (forall r', r <> space :: r') ->
  Re.heading_try k (repeat hash n ++ r) = None.
Proof.
  intros Hr. induction k as [|k IH]; intros Hn; [reflexivity|].
  cbn [Re.heading_try].
  destruct (Nat.lt_ge_cases n (S k)) as [Hlt|Hge].
  - rewrite (strip_run_short _ _ _ _ Hlt Hr).
    apply IH. destruct Hn as [Hn|Hn]; [lia|now right].
  - rewrite (strip_run_repeat _ _ _ r Hge).
    destruct (n - S k)%nat as [|d] eqn:Hd; cbn [repeat app].
    + destruct Hn as [Hn|[Hn|Hn]]; try lia.
      destruct r as [|x r']; [apply IH; now right; right|].
      destruct (N.eqb_spec x space) as [->|];
        [now destruct (Hn r')|apply IH; now right; right].
    + replace (hash =? space) with false by reflexivity.
      apply IH. destruct Hn as [Hn|Hn]; [left; lia|now right].
Qed.

Lemma heading_try_hit k n content :
  (1 <= n <= k)%nat ->
  Re.heading_try k (repeat hash n ++ space :: content)
  = Some (repeat hash n, Re.dot_star content).
Proof.
  assert (Hr : hash_free_head (space :: content)).
  { intros r' H. discriminate H. }
  induction k as [|k IH]; intros Hn; [lia|].
  cbn [Re.heading_try].
  destruct (Nat.eq_dec n (S k)) as [->|Hne].
  - rewrite strip_run_repeat by lia. rewrite Nat.sub_diag. cbn [repeat app].
    now rewrite N.eqb_refl.
  - rewrite strip_run_short by (assumption || lia). apply IH. lia.
Qed.

Lemma dot_star_id s : ~ In Re.newline s -> Re.dot_star s = s.
Proof.
  induction s as [|c s IH]; intros H; simpl; [reflexivity|].
  unfold Re.dot. destruct (N.eqb_spec c Re.newline) as [->|_].
  - destruct H. now left.
  - simpl. f_equal. apply IH. intros Hin. apply H. now right.
Qed.

Lemma match_item_hash c n r :
  (1 <= n)%nat -> c <> hash -> Re.match_item c (repeat hash n ++ r) = None.
Proof.
  intros Hn Hc. destruct n as [|n]; [lia|]. cbn [repeat app].
  unfold Re.match_item. destruct (repeat hash n ++ r); [reflexivity|].
  destruct (N.eqb_spec hash c); [congruence|reflexivity].
Qed.

(** Every line is a run of hashes and a text that does not start with
    one. *)
Lemma hash_run line :
  exists n tail, line = repeat hash n ++ tail /\ hash_free_head tail.
Proof.
  induction line as [|c line (n & tail & -> & Ht)].
  - exists 0%nat, []. split; [reflexivity|]. intros r' H. discriminate H.
  - destruct (N.eq_dec c hash) as [->|Hc].
    + exists (S n), tail. now split.
    + exists 0%nat, (c :: repeat hash n ++ tail). split; [reflexivity|].
      intros r' H. injection H as H _. contradiction.
Qed.

(** The lines the heading pattern matches. *)
Lemma match_heading_some line :
  Re.match_heading line <> None ->
  exists n content,
    (1 <= n <= 6)%nat /\ line = repeat hash n ++ space :: content.
Proof.
  intros H. destruct (hash_run line) as (n & tail & -> & Ht).
  destruct tail as [|c content].
  - destruct H. apply heading_try_miss; [assumption|].
    right; right. intros r' E. discriminate E.
  - destruct (N.eq_dec c space) as [->|Hc].
    + destruct (Nat.eq_dec n 0) as [->|Hn0].
      { destruct H. apply heading_try_miss; [assumption|]. now right; left. }
      destruct (Nat.lt_ge_cases 6 n) as [Hn|Hn].
      { destruct H. apply heading_try_miss; [assumption|]. now left. }
      exists n, content. split; [lia|reflexivity].
    + destruct H. apply heading_try_miss; [assumption|].
      right; right. intros r' E. injection E as E _. contradiction.
Qed.

End Heading.

(** ** Substitution of a pair pattern: the scan against the specification *)

Lemma app_same_length {A} (x y u v : list A) :
  x ++ u = y ++ v -> length x = length y -> x = y /\ u = v.
Proof.
  revert y. induction x as [|a x IH]; intros [|b y] E L; try discriminate.
  - now split.
  - simpl in E. injection E as -> E. injection L as L.
    destruct (IH _ E L) as [-> ->]. now split.
Qed.

Section Substitution.

Variables o1 o2 c1 c2 : char.
Variable repl : str -> result str.

Lemma lazy_until_some t X r :
  Re.lazy_until c1 c2 t = Some (X, r) ->
  t = X ++ c1 :: c2 :: r /\ span X /\ shortest c1 c2 X t.
Proof.
  revert X r. induction t as [|a t IH]; intros X r; simpl; [discriminate|].
  destruct t as [|b rest]; [discriminate|].
  destruct ((a =? c1) && (b =? c2)) eqn:Hab.
  - intros [= <- <-]. apply andb_true_iff in Hab as [Ha Hb].
    apply N.eqb_eq in Ha, Hb. subst.
    repeat split. intros X' rest' _. simpl. lia.
  - destruct (Re.dot a) eqn:Hdot; [|discriminate].
    destruct (Re.lazy_until c1 c2 (b :: rest)) as [[x r']|]; [|discriminate].
    intros [= <- <-]. destruct (IH _ _ eq_refl) as (E & Hx & Hs).
    split; [simpl; now rewrite <- E|]. split.
    + unfold span. simpl. now rewrite Hdot.
    + intros X' rest' HX'. destruct X' as [|a' X'].
      * simpl in HX'. injection HX' as -> ->.
        rewrite !N.eqb_refl in Hab. discriminate.
      * simpl in HX'. injection HX' as _ HX'. simpl.
        specialize (Hs _ _ HX'). lia.
Qed.

Lemma lazy_until_none t :
  Re.lazy_until c1 c2 t = None ->
  forall X r, t = X ++ c1 :: c2 :: r -> ~ span X.
Proof.
  induction t as [|a t IH]; intros H X r E.
  - destruct X; discriminate.
  - simpl in H. destruct t as [|b rest].
    + destruct X as [|? [|? ?]]; discriminate.
    + destruct ((a =? c1) && (b =? c2)) eqn:Hab; [discriminate|].
      destruct X as [|a' X].
      * simpl in E. injection E as -> ->.
        rewrite !N.eqb_refl in Hab. discriminate.
      * simpl in E. injection E as <- E. unfold span. simpl.
        destruct (Re.dot a); [|simpl; discriminate].
        destruct (Re.lazy_until c1 c2 (b :: rest)) as [[? ?]|];
          [discriminate|].
        apply (IH eq_refl _ _ E).
Qed.

Lemma lazy_until_complete X r :
  span X -> shortest c1 c2 X (X ++ c1 :: c2 :: r) ->
  Re.lazy_until c1 c2 (X ++ c1 :: c2 :: r) = Some (X, r).
Proof.
  intros HX Hs.
  destruct (Re.lazy_until c1 c2 (X ++ c1 :: c2 :: r)) as [[X0 r0]|] eqn:E.
  - apply lazy_until_some in E as (E & _ & Hs0).
    pose proof (Hs _ _ E) as H1. pose proof (Hs0 _ _ eq_refl) as H2.
    assert (Hlen : length X = length X0) by lia.
    destruct (app_same_length _ _ _ _ E Hlen) as [<- E'].
    now injection E' as <-.
  - now destruct (lazy_until_none _ E _ _ eq_refl).
Qed.

Lemma match_pair_some s X r :
  Re.match_pair o1 o2 c1 c2 s = Some (X, r) ->
  s = o1 :: o2 :: X ++ c1 :: c2 :: r /\ span X
  /\ shortest c1 c2 X (X ++ c1 :: c2 :: r).
Proof.
  destruct s as [|a [|b t]]; simpl; try discriminate.
  destruct ((a =? o1) && (b =? o2)) eqn:Hab; [|discriminate].
  apply andb_true_iff in Hab as [Ha Hb]. apply N.eqb_eq in Ha, Hb. subst.
  intros H. apply lazy_until_some in H as (-> & HX & Hs). auto.
Qed.

Lemma match_pair_none s :
  Re.match_pair o1 o2 c1 c2 s = None -> ~ occurs_at_head o1 o2 c1 c2 s.
Proof.
  intros H (X & rest & -> & HX). simpl in H. rewrite !N.eqb_refl in H.
  simpl in H. exact (lazy_until_none _ H _ _ eq_refl HX).
Qed.

Lemma match_pair_complete X r :
  span X -> shortest c1 c2 X (X ++ c1 :: c2 :: r) ->
  Re.match_pair o1 o2 c1 c2 (o1 :: o2 :: X ++ c1 :: c2 :: r) = Some (X, r).
Proof.
  intros HX Hs. simpl. rewrite !N.eqb_refl. simpl.
  now apply lazy_until_complete.
Qed.

Lemma match_pair_head_none s :
  ~ occurs_at_head o1 o2 c1 c2 s -> Re.match_pair o1 o2 c1 c2 s = None.
Proof.
  intros H. destruct (Re.match_pair o1 o2 c1 c2 s) as [[X r]|] eqn:E;
    [|reflexivity].
  apply match_pair_some in E as (-> & HX & _).
  destruct H. now exists X, r.
Qed.

(** [Re.sub] computes exactly the rewriting of the specification. *)
Lemma sub_sound s : forall out,
  Re.sub o1 o2 c1 c2 repl s = Ok out -> Replaced o1 o2 c1 c2 repl s out.
Proof.
  remember (length s) as n eqn:Hn. revert s Hn.
  induction n as [n IH] using lt_wf_ind. intros [|a s'] Hn out.
  - rewrite Re.sub_equation_1. intros [= <-]. constructor.
  - rewrite sub_cons.
    destruct (Re.match_pair o1 o2 c1 c2 (a :: s')) as [[X r]|] eqn:E.
    + pose proof (match_pair_length _ _ _ _ _ _ _ E) as Hlen.
      apply match_pair_some in E as (E & HX & Hs). rewrite E.
      destruct (repl X) as [y|] eqn:Hy; [|discriminate].
      destruct (Re.sub o1 o2 c1 c2 repl r) as [out'|] eqn:Hr; [|discriminate].
      intros [= <-]. apply Replaced_occurrence; auto.
      apply (IH (length r)); [lia|reflexivity|assumption].
    + destruct (Re.sub o1 o2 c1 c2 repl s') as [out'|] eqn:Hr; [|discriminate].
      intros [= <-]. apply Replaced_copy.
      * now apply match_pair_none.
      * apply (IH (length s')); [simpl in Hn; lia|reflexivity|assumption].
Qed.

Lemma sub_complete s out :
  Replaced o1 o2 c1 c2 repl s out -> Re.sub o1 o2 c1 c2 repl s = Ok out.
Proof.
  induction 1 as [|X rest y out HX Hs Hy _ IH|a s out Hno _ IH].
  - apply Re.sub_equation_1.
  - rewrite sub_cons, (match_pair_complete _ _ HX Hs), Hy, IH.
    reflexivity.
  - rewrite sub_cons, (match_pair_head_none _ Hno), IH. reflexivity.
Qed.

Lemma sub_Replaced s out :
  Re.sub o1 o2 c1 c2 repl s = Ok out <-> Replaced o1 o2 c1 c2 repl s out.
Proof. split; [apply sub_sound|apply sub_complete]. Qed.

Lemma sub_no_occurrence s :
  ~ occurs o1 o2 c1 c2 s -> Re.sub o1 o2 c1 c2 repl s = Ok s.
Proof.
  induction s as [|a s IH]; intros H.
  - apply Re.sub_equation_1.
  - rewrite sub_cons, match_pair_head_none, IH; [reflexivity| |].
    + intros (before & tail & -> & Ht). apply H.
      now exists (a :: before), tail.
    + intros Ht. apply H. now exists [], (a :: s).
Qed.

End Substitution.

(** ** The line translator: headings and list items *)

Lemma format_int_digit n :
  (n <= 9)%nat -> format_int n = [48 + N.of_nat n].
Proof.
  intros H. do 10 (destruct n as [|n]; [reflexivity|]). lia.
Qed.

Lemma heading_fallthrough n tail :
  (1 <= n)%nat ->
  Re.match_heading (repeat (chr "#") n ++ tail) = None ->
  process_markdown_line (repeat (chr "#") n ++ tail)
  = (l <- substitute (repeat (chr "#") n ++ tail) ;; Ok (paragraph l)).
Proof.
  intros Hn Hm. unfold process_markdown_line. rewrite Hm.
  rewrite !match_item_hash by (assumption || discriminate). reflexivity.
Qed.

(** C4.  The heading pattern matches the lines made of one to six hashes, a
    space and a content, and no other.  Such a line is translated to the
    bare fragment <hN>content</hN>, N the number of hashes, with no tag
    (the content is the second group of the pattern: all of the rest when it
    holds no line feed).  A line of seven or more hashes, or whose run of
    hashes is not followed by a space, does not match the heading pattern
    and goes through the substitutions. *)
Theorem heading_rule :
  (forall line,
     Re.match_heading line <> None ->
     exists n content,
       (1 <= n <= 6)%nat /\ line = repeat (chr "#") n ++ chr " " :: content)
  /\ (forall n content, (1 <= n <= 6)%nat ->
     let line := repeat (chr "#") n ++ chr " " :: content in
     let N := [48 + N.of_nat n] in
     Re.match_heading line = Some (repeat (chr "#") n, Re.dot_star content)
     /\ (exists v, process_markdown_line line = Ok v
          /\ fragment_of v
             = py "<h" ++ N ++ py ">" ++ Re.dot_star content
                  ++ py "</h" ++ N ++ py ">"
          /\ tag_of v = None)
     /\ (~ In Re.newline content -> Re.dot_star content = content))
  /\ (forall n tail, hash_free_head tail ->
        (7 <= n)%nat \/ ((1 <= n)%nat /\ forall r', tail <> chr " " :: r') ->
        let line := repeat (chr "#") n ++ tail in
        Re.match_heading line = None
        /\ process_markdown_line line
           = (l <- substitute line ;; Ok (paragraph l))).
Proof.
  split; [exact match_heading_some|]. split.
  - intros n content Hn line N.
    assert (Hm : Re.match_heading line
                 = Some (repeat (chr "#") n, Re.dot_star content))
      by (apply heading_try_hit; assumption).
    split; [exact Hm|]. split; [|apply dot_star_id].
    unfold process_markdown_line. rewrite Hm, repeat_length.
    rewrite format_int_digit by lia. eexists. split; [reflexivity|].
    split; reflexivity.
  - intros n tail Htail Hn line.
    assert (Hm : Re.match_heading line = None).
    { apply heading_try_miss; [assumption|].
      destruct Hn as [Hn|[_ Hn]]; [left; lia|right; right; exact Hn]. }
    split; [exact Hm|]. apply heading_fallthrough; [|exact Hm].
    destruct Hn as [Hn|[Hn _]]; lia.
Qed.

Lemma heading_rule_witness :
  process_markdown_line (py "### Title") = Ok (PStr (py "<h3>Title</h3>"))
  /\ Re.match_heading (py "####### seven") = None
  /\ Re.match_heading (py "#NoSpace") = None.
Proof.
  destruct heading_rule as (_ & Hhit & Hmiss). split; [|split].
  - destruct (Hhit 3%nat (py "Title")) as (_ & (v & Hv & Hf & Ht) & _);
      [lia|].
    cbv zeta in Hv.
    change (py "### Title") with (repeat (chr "#") 3 ++ chr " " :: py "Title").
    rewrite Hv. destruct v as [s|a b]; [|discriminate Ht].
    simpl in Hf. rewrite Hf. reflexivity.
  - apply (Hmiss 7%nat (py " seven")); [intros r' H; discriminate H|].
    left. lia.
  - apply (Hmiss 1%nat (py "NoSpace")); [intros r' H; discriminate H|].
    right. split; [lia|]. intros r' H. discriminate H.
Defined.

(** C5.  A line matching the dash pattern is translated to the pair of
    <li>, the line without its first two characters, </li>, and the tag
    "ul"; a line matching the star pattern to the same fragment and the tag
    "ol".  Such a line is exactly one that starts with the character and a
    space. *)
Theorem list_item_rule :
  forall line,
    (Re.match_item (chr "-") line <> None ->
       process_markdown_line line
       = Ok (PTuple (py "<li>" ++ skipn 2 line ++ py "</li>") (py "ul")))
    /\ (Re.match_item (chr "*") line <> None ->
       process_markdown_line line
       = Ok (PTuple (py "<li>" ++ skipn 2 line ++ py "</li>") (py "ol")))
    /\ (forall c, Re.match_item c line <> None
                  <-> exists rest, line = c :: chr " " :: rest).
Proof.
  intros line.
  assert (Hitem : forall c, Re.match_item c line <> None
                            <-> exists rest, line = c :: chr " " :: rest).
  { intros c. unfold Re.match_item. destruct line as [|x [|y rest]].
    - split; [congruence|intros (? & [=])].
    - split; [congruence|intros (? & [=])].
    - destruct (N.eqb_spec x c) as [->|Hx];
        [destruct (N.eqb_spec y (chr " ")) as [->|Hy]|]; simpl.
      + split; [eauto|discriminate].
      + split; [congruence|intros (? & E)].
        injection E as E _. now destruct Hy.
      + split; [congruence|intros (? & E)].
        injection E as E _. now destruct Hx. }
  split; [|split; [|exact Hitem]].
  - intros H. apply Hitem in H as (rest & ->). reflexivity.
  - intros H. apply Hitem in H as (rest & ->). reflexivity.
Qed.

Lemma list_item_rule_witness :
  process_markdown_line (py "- one **x**")
  = Ok (PTuple (py "<li>one **x**</li>") (py "ul"))
  /\ process_markdown_line (py "* two")
     = Ok (PTuple (py "<li>two</li>") (py "ol")).
Proof.
  split.
  - apply (proj1 (list_item_rule (py "- one **x**"))). discriminate.
  - apply (proj1 (proj2 (list_item_rule (py "* two")))). discriminate.
Defined.

(** ** Blank lines *)

Lemma lstrip_nil s : lstrip s = [] <-> forallb isspace s = true.
Proof.
  induction s as [|c s IH]; simpl; [tauto|].
  destruct (isspace c); simpl; [exact IH|]. split; discriminate.
Qed.

Lemma rstrip_nil s : rstrip s = [] <-> forallb isspace s = true.
Proof.
  induction s as [|c s IH]; simpl; [tauto|].
  destruct (rstrip s) as [|x r] eqn:E.
  - destruct (isspace c); simpl; [|split; discriminate].
    split; intros _; [now apply IH|reflexivity].
  - split; [discriminate|]. intros H. apply andb_true_iff in H as [_ H].
    apply IH in H. discriminate.
Qed.

Lemma rstrip_space s : forallb isspace (rstrip s) = true -> rstrip s = [].
Proof.
  induction s as [|c s IH]; simpl; [reflexivity|].
  destruct (rstrip s) as [|x r] eqn:E.
  - destruct (isspace c) eqn:Hc; [reflexivity|]. simpl. rewrite Hc.
    discriminate.
  - intros H. apply andb_true_iff in H as [_ H]. specialize (IH H).
    discriminate.
Qed.

(** [not line.strip()] holds exactly of the lines that are empty or hold
    only whitespace. *)
Lemma blank_iff s : truthy (strip s) = false <-> forallb isspace s = true.
Proof.
  unfold strip. split.
  - intros H. apply rstrip_nil. apply rstrip_space. apply lstrip_nil.
    destruct (lstrip (rstrip s)); [reflexivity|discriminate].
  - intros H. apply rstrip_nil in H. rewrite H. reflexivity.
Qed.

Lemma paragraph_blank t :
  forallb isspace t = true -> paragraph t = PTuple [] (py "newline").
Proof.
  intros H. apply blank_iff in H. unfold paragraph. now rewrite H.
Qed.

Lemma paragraph_text t :
  forallb isspace t = false -> paragraph t = PStr t.
Proof.
  intros H. unfold paragraph. destruct (truthy (strip t)) eqn:E;
    [reflexivity|]. apply blank_iff in E. congruence.
Qed.

Lemma process_plain line :
  Re.match_heading line = None ->
  Re.match_item (chr "-") line = None ->
  Re.match_item (chr "*") line = None ->
  process_markdown_line line = (l <- substitute line ;; Ok (paragraph l)).
Proof.
  intros H1 H2 H3. unfold process_markdown_line. now rewrite H1, H2, H3.
Qed.

Lemma loop_body_tuple st raw a b :
  process_markdown_line (rstrip raw) = Ok (PTuple a b) ->
  loop_body st raw = Ok (dispatch st a b).
Proof. intros H. unfold loop_body. now rewrite H. Qed.

(** C6.  On a line that is neither a heading nor a list item, with the
    four substitutions done: when the text is empty or holds only
    whitespace the translator returns the empty fragment with the tag
    "newline", and the loop then closes the open list, if any, and appends
    <p>; otherwise the translator returns the substituted text, bare. *)
Theorem paragraph_rule :
  (forall line t,
     Re.match_heading line = None ->
     Re.match_item (chr "-") line = None ->
     Re.match_item (chr "*") line = None ->
     substitute line = Ok t ->
     (forallb isspace t = true ->
        process_markdown_line line = Ok (PTuple [] (py "newline")))
     /\ (forallb isspace t = false ->
           exists v, process_markdown_line line = Ok v
                     /\ fragment_of v = t /\ tag_of v = None))
  /\ (forall raw html,
        process_markdown_line (rstrip raw) = Ok (PTuple [] (py "newline")) ->
        loop_body (mk_acc html None) raw
        = Ok (mk_acc (html ++ [py "<p>"]) None)
        /\ loop_body (mk_acc html (Some (py "ul"))) raw
           = Ok (mk_acc (html ++ [py "</ul>"] ++ [py "<p>"]) None)
        /\ loop_body (mk_acc html (Some (py "ol"))) raw
           = Ok (mk_acc (html ++ [py "</ol>"] ++ [py "<p>"]) None)).
Proof.
  split.
  - intros line t H1 H2 H3 Ht. rewrite (process_plain _ H1 H2 H3), Ht.
    simpl. split; intros Hb.
    + now rewrite paragraph_blank.
    + rewrite paragraph_text by assumption. eexists. repeat split.
  - intros raw html H. rewrite !(loop_body_tuple _ _ _ _ H).
    unfold dispatch. simpl. rewrite <- !app_assoc. repeat split.
Qed.

Lemma paragraph_rule_witness :
  process_markdown_line (py "((cC))") = Ok (PTuple [] (py "newline"))
  /\ process_markdown_line (py "Normal **text**.")
     = Ok (PStr (py "Normal <b>text</b>."))
  /\ loop_body (mk_acc [py "<ul>"] (Some (py "ul"))) (py "   ")
     = Ok (mk_acc [py "<ul>"; py "</ul>"; py "<p>"] None).
Proof.
  destruct paragraph_rule as [Htr Hacc]. split; [|split].
  - apply (Htr (py "((cC))") []); reflexivity.
  - destruct (Htr (py "Normal **text**.") (py "Normal <b>text</b>.")
                  eq_refl eq_refl eq_refl eq_refl) as [_ H].
    destruct (H eq_refl) as (v & Hv & Hf & Ht).
    rewrite Hv. destruct v; [|discriminate Ht]. simpl in Hf. now rewrite Hf.
  - apply (Hacc (py "   ") [py "<ul>"]). reflexivity.
Defined.

(** ** The four substitutions *)

Lemma Replaced_ext o1 o2 c1 c2 f g s out :
  (forall X, f X = g X) ->
  Replaced o1 o2 c1 c2 f s out -> Replaced o1 o2 c1 c2 g s out.
Proof.
  intros Hfg. induction 1 as [|X rest y out HX Hs Hy _ IH|a s out Hno _ IH].
  - constructor.
  - apply Replaced_occurrence; auto. now rewrite <- Hfg.
  - now apply Replaced_copy.
Qed.

Lemma remove_c_from_text_delete X : remove_c_from_text X = delete_c X.
Proof.
  unfold remove_c_from_text, replace_char_empty, delete_c.
  induction X as [|ch X IH]; [reflexivity|]. cbn [filter].
  destruct (ch =? chr "c"); cbn [negb orb filter]; [exact IH|].
  destruct (ch =? chr "C"); cbn [negb orb filter]; [exact IH|].
  now rewrite IH.
Qed.

Lemma le_bytes_length n x : length (Hashlib.le_bytes n x) = n.
Proof. unfold Hashlib.le_bytes. now rewrite length_map, length_seq. Qed.

Lemma le_bytes_octets n x :
  Forall (fun b => b < 256) (Hashlib.le_bytes n x).
Proof.
  unfold Hashlib.le_bytes. apply Forall_map, Forall_forall. intros i _.
  apply N.mod_lt. discriminate.
Qed.

Lemma digest_length msg : length (Hashlib.digest msg) = 16%nat.
Proof.
  unfold Hashlib.digest. cbv zeta.
  now rewrite !length_app, !le_bytes_length.
Qed.

Lemma digest_octets msg : Forall (fun b => b < 256) (Hashlib.digest msg).
Proof.
  unfold Hashlib.digest. cbv zeta.
  repeat (apply Forall_app; split); apply le_bytes_octets.
Qed.

Lemma hexdigit_lower d : d < 16 -> lower_hex (Hashlib.hexdigit d) = true.
Proof.
  intros H. unfold Hashlib.hexdigit, lower_hex.
  destruct (N.ltb_spec d 10).
  - apply orb_true_iff. left. apply andb_true_iff.
    split; apply N.leb_le; lia.
  - apply orb_true_iff. right. apply andb_true_iff.
    split; apply N.leb_le; lia.
Qed.

Lemma hexdigest_length msg : length (Hashlib.hexdigest msg) = 32%nat.
Proof.
  unfold Hashlib.hexdigest. pose proof (digest_length msg) as H.
  revert H. generalize (Hashlib.digest msg) as l. intros l.
  assert (E : forall l : list Hashlib.byte,
             length (flat_map Hashlib.hex_of_byte l) = (2 * length l)%nat).
  { induction l0 as [|b l0 IH]; simpl; [reflexivity|]. rewrite IH. lia. }
  rewrite E. lia.
Qed.

Lemma hexdigest_lower msg :
  forallb lower_hex (Hashlib.hexdigest msg) = true.
Proof.
  unfold Hashlib.hexdigest. pose proof (digest_octets msg) as H.
  induction H as [|b l Hb _ IH]; [reflexivity|]. simpl.
  rewrite IH, !hexdigit_lower; [reflexivity| |].
  - apply N.mod_lt. discriminate.
  - apply N.Div0.div_lt_upper_bound. exact Hb.
Qed.

(** C7.  On a line that is neither a heading nor a list item the translator
    returns exactly what four rewritings, one after the other, give: every
    shortest occurrence of two stars, X, two stars becomes <b>X</b>; then
    every one of two underscores, X, two underscores becomes <em>X</em>;
    then every one of two opening brackets, X, two closing brackets becomes
    the MD5 digest of the UTF-8 octets of X, 32 lowercase hexadecimal
    digits; then every one of two opening parentheses, X, two closing
    parentheses becomes X with every c and every C deleted.  The digests
    are the known ones: of the empty text, of hello, of a text of two
    octets for one character, of a text longer than one block; the digest
    is taken of the text as the bold rewriting left it, and a digest inside
    parentheses loses its c digits; ((coconut)) gives oonut. *)
Theorem substitution_rule :
  (forall line v,
     Re.match_heading line = None ->
     Re.match_item (chr "-") line = None ->
     Re.match_item (chr "*") line = None ->
     (process_markdown_line line = Ok v <->
      exists l1 l2 l3 l4,
        Replaced (chr "*") (chr "*") (chr "*") (chr "*")
          (fun X => Ok (py "<b>" ++ X ++ py "</b>")) line l1
        /\ Replaced (chr "_") (chr "_") (chr "_") (chr "_")
             (fun X => Ok (py "<em>" ++ X ++ py "</em>")) l1 l2
        /\ Replaced (chr "[") (chr "[") (chr "]") (chr "]")
             (fun X => bs <- encode X ;; Ok (Hashlib.hexdigest bs)) l2 l3
        /\ Replaced (chr "(") (chr "(") (chr ")") (chr ")")
             (fun X => Ok (delete_c X)) l3 l4
        /\ v = paragraph l4))
  /\ (forall bs, length (Hashlib.hexdigest bs) = 32%nat
                 /\ forallb lower_hex (Hashlib.hexdigest bs) = true)
  /\ Hashlib.hexdigest [97; 98; 99] = py "900150983cd24fb0d6963f7d28e17f72"
  /\ process_markdown_line (py "((coconut))") = Ok (PStr (py "oonut"))
  /\ process_markdown_line (py "[[]]")
     = Ok (PStr (py "d41d8cd98f00b204e9800998ecf8427e"))
  /\ process_markdown_line (py "[[hello]]")
     = Ok (PStr (py "5d41402abc4b2a76b9719d911017c592"))
  /\ process_markdown_line (py "[[" ++ [0xE9] ++ py "]]")
     = Ok (PStr (py "66ddcd97cfdeabb2f6fb8a999b4bc76f"))
  /\ process_markdown_line (py "[[" ++ repeat (chr "x") 70 ++ py "]]")
     = Ok (PStr (py "7d56c0f83fd1e320d60ea2f13dfdeedd"))
  /\ process_markdown_line (py "[[**a**]]")
     = Ok (PStr (py "d0d0b371e07faa35478d8dde673a8cc5"))
  /\ convert_to_md5 (py "<b>a</b>")
     = Ok (py "d0d0b371e07faa35478d8dde673a8cc5")
  /\ process_markdown_line (py "x [[a b]] y [[hello]]")
     = Ok (PStr (py "x 0cc9cd4dd26c5137b675a0d819cb9ab0 y "
                 ++ py "5d41402abc4b2a76b9719d911017c592"))
  /\ process_markdown_line (py "(([[abc]]))")
     = Ok (PStr (py "900150983d24fb0d6963f7d28e17f72"))
  /\ process_markdown_line (py "a **b** __c__ ((Cocoa)) [[hello]]")
     = Ok (PStr (py "a <b>b</b> <em>c</em> ooa "
                 ++ py "5d41402abc4b2a76b9719d911017c592")).
Proof.
  split; [|split].
  - intros line v H1 H2 H3. rewrite (process_plain _ H1 H2 H3).
    unfold substitute. split.
    + intros H. apply bind_ok in H as (l4 & H & [= <-]).
      apply bind_ok in H as (l1 & Hb & H).
      apply bind_ok in H as (l2 & He & H).
      apply bind_ok in H as (l3 & Hm & Hc).
      exists l1, l2, l3, l4.
      apply sub_Replaced in Hb, He, Hm, Hc. repeat split; try assumption.
      eapply Replaced_ext; [|exact Hc]. intros X. cbv beta.
      now rewrite remove_c_from_text_delete.
    + intros (l1 & l2 & l3 & l4 & Hb & He & Hm & Hc & ->).
      apply sub_Replaced in Hb, He, Hm.
      apply (Replaced_ext _ _ _ _ _ (fun x => Ok (remove_c_from_text x)))
        in Hc; [|intros X; now rewrite remove_c_from_text_delete].
      apply sub_Replaced in Hc.
      apply bind_ok. exists l4. split; [|reflexivity].
      apply bind_ok. exists l1. split; [exact Hb|].
      apply bind_ok. exists l2. split; [exact He|].
      apply bind_ok. exists l3. split; [exact Hm|exact Hc].
  - intros bs. split; [apply hexdigest_length|apply hexdigest_lower].
  - repeat (split; [vm_compute; reflexivity|]). vm_compute. reflexivity.
Qed.

Lemma substitution_rule_witness :
  exists l1 l2 l3 l4,
    Replaced (chr "*") (chr "*") (chr "*") (chr "*")
      (fun X => Ok (py "<b>" ++ X ++ py "</b>"))
      (py "a **b** __c__ ((Cocoa)) [[hello]]") l1
    /\ Replaced (chr "_") (chr "_") (chr "_") (chr "_")
         (fun X => Ok (py "<em>" ++ X ++ py "</em>")) l1 l2
    /\ Replaced (chr "[") (chr "[") (chr "]") (chr "]")
         (fun X => bs <- encode X ;; Ok (Hashlib.hexdigest bs)) l2 l3
    /\ Replaced (chr "(") (chr "(") (chr ")") (chr ")")
         (fun X => Ok (delete_c X)) l3 l4
    /\ PStr (py "a <b>b</b> <em>c</em> ooa "
             ++ py "5d41402abc4b2a76b9719d911017c592") = paragraph l4.
Proof.
  apply (proj1 (proj1 substitution_rule
                  (py "a **b** __c__ ((Cocoa)) [[hello]]")
                  (PStr (py "a <b>b</b> <em>c</em> ooa "
                         ++ py "5d41402abc4b2a76b9719d911017c592"))
                  eq_refl eq_refl eq_refl)).
  vm_compute. reflexivity.
Defined.

(** ** Lines without Markdown tokens *)

Lemma has_match_occurs o1 o2 c1 c2 s :
  has_match o1 o2 c1 c2 s = true <-> occurs o1 o2 c1 c2 s.
Proof.
  split.
  - induction s as [|a s IH]; [discriminate|]. cbn [has_match].
    destruct (Re.match_pair o1 o2 c1 c2 (a :: s)) as [[X r]|] eqn:E.
    + intros _. apply match_pair_some in E as (E & HX & _).
      exists [], (a :: s). split; [reflexivity|]. now exists X, r.
    + intros H. destruct (IH H) as (before & tail & -> & Ht).
      now exists (a :: before), tail.
  - intros (before & tail & -> & Ht).
    induction before as [|a before IH].
    + destruct tail as [|a tail].
      * destruct Ht as (X & r & [=] & _).
      * cbn [app has_match].
        destruct (Re.match_pair o1 o2 c1 c2 (a :: tail)) eqn:E;
          [reflexivity|]. now apply match_pair_none in E.
    + cbn [app has_match]. rewrite IH. apply orb_true_r.
Qed.

Lemma substitute_no_token line :
  ~ occurs (chr "*") (chr "*") (chr "*") (chr "*") line ->
  ~ occurs (chr "_") (chr "_") (chr "_") (chr "_") line ->
  ~ occurs (chr "[") (chr "[") (chr "]") (chr "]") line ->
  ~ occurs (chr "(") (chr "(") (chr ")") (chr ")") line ->
  substitute line = Ok line.
Proof.
  intros Hb He Hm Hc. unfold substitute.
  rewrite (sub_no_occurrence _ _ _ _ _ _ Hb). cbn [bind].
  rewrite (sub_no_occurrence _ _ _ _ _ _ He). cbn [bind].
  rewrite (sub_no_occurrence _ _ _ _ _ _ Hm). cbn [bind].
  apply (sub_no_occurrence _ _ _ _ _ _ Hc).
Qed.

(** C9.  A line without Markdown tokens (it matches neither the heading
    nor a list pattern, holds no occurrence of any of the four pair
    patterns, and is not made of whitespace only) is returned as it is, and
    the translator applied to what it returned returns the same again. *)
Theorem translator_idempotent :
  forall line,
    Re.match_heading line = None ->
    Re.match_item (chr "-") line = None ->
    Re.match_item (chr "*") line = None ->
    ~ occurs (chr "*") (chr "*") (chr "*") (chr "*") line ->
    ~ occurs (chr "_") (chr "_") (chr "_") (chr "_") line ->
    ~ occurs (chr "[") (chr "[") (chr "]") (chr "]") line ->
    ~ occurs (chr "(") (chr "(") (chr ")") (chr ")") line ->
    forallb isspace line = false ->
    process_markdown_line line = Ok (PStr line)
    /\ (forall v, process_markdown_line line = Ok v ->
                  fragment_of v = line
                  /\ process_markdown_line (fragment_of v) = Ok v).
Proof.
  intros line H1 H2 H3 Hb He Hm Hc Hs.
  assert (H : process_markdown_line line = Ok (PStr line)).
  { rewrite (process_plain _ H1 H2 H3).
    rewrite (substitute_no_token _ Hb He Hm Hc). cbn [bind].
    now rewrite paragraph_text. }
  split; [exact H|]. intros v Hv. rewrite H in Hv. injection Hv as <-.
  split; [reflexivity|exact H].
Qed.

Lemma no_occurrence o1 o2 c1 c2 s :
  has_match o1 o2 c1 c2 s = false -> ~ occurs o1 o2 c1 c2 s.
Proof.
  intros H Ho. apply has_match_occurs in Ho. congruence.
Qed.

Lemma translator_idempotent_witness :
  process_markdown_line (py "<h1>Title</h1>") = Ok (PStr (py "<h1>Title</h1>"))
  /\ (forall v, process_markdown_line (py "<h1>Title</h1>") = Ok v ->
                fragment_of v = py "<h1>Title</h1>"
                /\ process_markdown_line (fragment_of v) = Ok v).
Proof.
  apply (translator_idempotent (py "<h1>Title</h1>"));
    try reflexivity; apply no_occurrence; reflexivity.
Defined.

(** ** The loop of main *)

Lemma dispatch_one_char st frag c :
  dispatch st frag [c]
  = mk_acc (close_if_open (html_lines st) (list_type st) ++ [frag])
           (if truthy_opt (list_type st) then None else list_type st).
Proof.
  destruct st as [html lt]. unfold dispatch.
  rewrite !str_eqb_length by (simpl; lia). reflexivity.
Qed.

(** C10.  When the line, neither a heading nor a list item, has a text of
    exactly two characters after the substitutions and is not made of
    whitespace, the translator returns that bare text, the unpacking takes
    its first character as the fragment and its second as the tag, and the
    loop closes the open list, if any, and appends the first character
    alone. *)
Theorem two_character_line :
  forall raw a b st,
    Re.match_heading (rstrip raw) = None ->
    Re.match_item (chr "-") (rstrip raw) = None ->
    Re.match_item (chr "*") (rstrip raw) = None ->
    substitute (rstrip raw) = Ok [a; b] ->
    forallb isspace [a; b] = false ->
    process_markdown_line (rstrip raw) = Ok (PStr [a; b])
    /\ unpack2 (PStr [a; b]) = Ok ([a], [b])
    /\ loop_body st raw
       = Ok (mk_acc (close_if_open (html_lines st) (list_type st) ++ [[a]])
                    (if truthy_opt (list_type st) then None
                     else list_type st)).
Proof.
  intros raw a b st H1 H2 H3 Hs Hw.
  assert (H : process_markdown_line (rstrip raw) = Ok (PStr [a; b])).
  { rewrite (process_plain _ H1 H2 H3), Hs. cbn [bind].
    now rewrite paragraph_text. }
  split; [exact H|]. split; [reflexivity|].
  unfold loop_body. rewrite H. cbn [bind unpack2 fst snd].
  now rewrite dispatch_one_char.
Qed.

Lemma two_character_line_witness :
  loop_body (mk_acc [py "<ul>"] (Some (py "ul"))) (py "hi  ")
  = Ok (mk_acc [py "<ul>"; py "</ul>"; py "h"] None)
  /\ main [py "hi"] = Ok (py "h").
Proof.
  split.
  - apply (two_character_line (py "hi  ") 104 105
             (mk_acc [py "<ul>"] (Some (py "ul")))
             eq_refl eq_refl eq_refl eq_refl eq_refl).
  - unfold main, loop. 
    rewrite (proj2 (proj2 (two_character_line (py "hi") 104 105 init_acc
                             eq_refl eq_refl eq_refl eq_refl eq_refl))).
    reflexivity.
Defined.

(** ** The bracketing invariant *)

Lemma scan_app o out1 out2 :
  scan o (out1 ++ out2)
  = match scan o out1 with Some o' => scan o' out2 | None => None end.
Proof.
  revert o. induction out1 as [|l out1 IH]; intros o; [reflexivity|].
  simpl. destruct (scan_line o l); [apply IH|reflexivity].
Qed.

Lemma plain_one_char c : plain [c].
Proof.
  unfold plain, scan_line, is_item.
  rewrite !str_eqb_length by (simpl; lia). reflexivity.
Qed.

Lemma scan_snoc o out l :
  scan o (out ++ [l])
  = match scan o out with Some o' => scan_line o' l | None => None end.
Proof.
  rewrite scan_app. destruct (scan o out) as [o'|]; [|reflexivity].
  simpl. now destruct (scan_line o' l).
Qed.

Lemma scan_close_if_open html o :
  scan None html = Some o ->
  scan None (close_if_open html (list_type_of o)) = Some None.
Proof.
  intros H. destruct o as [[|]|]; simpl; [| |exact H];
    now rewrite scan_snoc, H.
Qed.

Lemma dispatch_invariant st frag tag :
  invariant st ->
  (tag <> py "ul" -> tag <> py "ol" -> tag <> py "newline" -> plain frag) ->
  invariant (dispatch st frag tag).
Proof.
  destruct st as [html lt]. intros (o & Hlt & Hscan) Hfrag.
  simpl in Hlt, Hscan. subst lt. unfold dispatch, invariant.
  cbn [html_lines list_type].
  pose proof (scan_close_if_open _ _ Hscan) as Hclose.
  destruct (list_eq_dec N.eq_dec tag (py "ul")) as [->|Hul].
  { rewrite str_eqb_refl. exists (Some UL). split; [reflexivity|].
    cbn [html_lines].
    destruct o as [[|]|]; [exact Hscan| |];
      match goal with
      | |- context [differs ?a ?b] => change (differs a b) with true
      end; cbv iota; now rewrite scan_snoc, Hclose. }
  rewrite (str_eqb_neq _ _ Hul).
  destruct (list_eq_dec N.eq_dec tag (py "ol")) as [->|Hol].
  { rewrite str_eqb_refl. exists (Some OL). split; [reflexivity|].
    cbn [html_lines].
    destruct o as [[|]|]; [|exact Hscan|];
      match goal with
      | |- context [differs ?a ?b] => change (differs a b) with true
      end; cbv iota; now rewrite scan_snoc, Hclose. }
  rewrite (str_eqb_neq _ _ Hol).
  destruct (list_eq_dec N.eq_dec tag (py "newline")) as [->|Hnl].
  { rewrite str_eqb_refl. exists None. cbn [html_lines list_type].
    split; [now destruct o as [[|]|]|]. now rewrite scan_snoc, Hclose. }
  rewrite (str_eqb_neq _ _ Hnl). specialize (Hfrag Hul Hol Hnl).
  exists None. cbn [html_lines list_type].
  split; [now destruct o as [[|]|]|]. now rewrite scan_snoc, Hclose.
Qed.

Lemma process_tuple_tag line a b :
  process_markdown_line line = Ok (PTuple a b) ->
  b = py "ul" \/ b = py "ol" \/ b = py "newline".
Proof.
  unfold process_markdown_line.
  destruct (Re.match_heading line) as [[g1 g2]|]; [discriminate|].
  destruct (truthy_match (Re.match_item (chr "-") line));
    [intros [= _ <-]; auto|].
  destruct (truthy_match (Re.match_item (chr "*") line));
    [intros [= _ <-]; auto|].
  destruct (substitute line) as [l|]; [|discriminate]. cbn [bind].
  unfold paragraph. destruct (negb (truthy (strip l))); [|discriminate].
  intros [= _ <-]. auto.
Qed.

Lemma loop_body_invariant st raw st' :
  invariant st -> loop_body st raw = Ok st' -> invariant st'.
Proof.
  intros Hinv. unfold loop_body.
  destruct (process_markdown_line (rstrip raw)) as [v|] eqn:Hv;
    [|discriminate]. cbn [bind].
  destruct v as [s|a b].
  - destruct s as [|a [|b [|c s]]]; try discriminate.
    cbn [unpack2 bind fst snd].
    intros [= <-]. apply dispatch_invariant; [assumption|].
    intros _ _ _. apply plain_one_char.
  - cbn [unpack2 bind fst snd]. intros [= <-].
    apply dispatch_invariant; [assumption|].
    intros H1 H2 H3. apply process_tuple_tag in Hv. tauto.
Qed.

Lemma finish_bracketed st : invariant st -> bracketed (finish st).
Proof.
  destruct st as [html lt]. intros (o & Hlt & Hscan).
  simpl in Hlt, Hscan. subst lt. unfold finish, bracketed.
  cbn [html_lines list_type]. now apply scan_close_if_open.
Qed.

Lemma loop_invariant lines : forall st st',
  invariant st -> loop lines st = Ok st' -> invariant st'.
Proof.
  induction lines as [|raw lines IH]; intros st st' Hinv; simpl.
  - now intros [= <-].
  - destruct (loop_body st raw) as [st1|] eqn:H1; [|discriminate].
    cbn [bind]. apply IH. eapply loop_body_invariant; eassumption.
Qed.

(** C8.  The output is correctly bracketed for every sequence of lines: at
    most one list is open at any point, and an open list is closed by its
    own closing tag before a list of the other type opens, before a line
    that is not a list item is appended, and after the last line.  The
    invariant holds at the start, every turn of the loop keeps it, and the
    closing step after the loop makes the output bracketed. *)
Theorem bracket_invariant :
  invariant init_acc
  /\ (forall st frag tag,
        invariant st ->
        (tag <> py "ul" -> tag <> py "ol" -> tag <> py "newline" ->
         plain frag) ->
        invariant (dispatch st frag tag))
  /\ (forall st raw st',
        invariant st -> loop_body st raw = Ok st' -> invariant st')
  /\ (forall st, invariant st -> bracketed (finish st))
  /\ (forall lines st,
        loop lines init_acc = Ok st -> invariant st /\ bracketed (finish st)).
Proof.
  assert (H0 : invariant init_acc) by (exists None; split; reflexivity).
  split; [exact H0|]. split; [exact dispatch_invariant|].
  split; [exact loop_body_invariant|]. split; [exact finish_bracketed|].
  intros lines st H. pose proof (loop_invariant _ _ _ H0 H) as Hinv.
  split; [exact Hinv|now apply finish_bracketed].
Qed.

Lemma bracket_invariant_witness :
  bracketed [py "<ul>"; py "</ul>"; py "<ol>"; py "</ol>"; py "<p>"; py "h";
             py "<ul>"; py "</ul>"].
Proof.
  apply (proj2 (proj2 (proj2 (proj2 (proj2 bracket_invariant)))
                  [py "- a"; py "* b"; py ""; py "hi"; py "- c"]
                  (mk_acc [py "<ul>"; py "</ul>"; py "<ol>"; py "</ol>";
                           py "<p>"; py "h"; py "<ul>"]
                          (Some (py "ul")))
                  eq_refl)).
Defined.

(** ** The translator returns on every line *)

Lemma encode_char_scalar c :
  scalar c = true -> exists bs, encode_char c = Ok bs.
Proof.
  unfold scalar. intros H.
  assert (Hc : c < 0xD800 \/ (0xDFFF < c /\ c < 0x110000)).
  { apply orb_true_iff in H as [H|H]; [left; now apply N.ltb_lt|right].
    apply andb_true_iff in H as [H1 H2]. split; now apply N.ltb_lt. }
  clear H. unfold encode_char.
  destruct (N.ltb_spec c 0x80); [eauto|].
  destruct (N.ltb_spec c 0x800); [eauto|].
  destruct (N.ltb_spec c 0x10000).
  - destruct (N.leb_spec 0xD800 c); [|simpl; eauto].
    destruct (N.leb_spec c 0xDFFF); [|simpl; eauto]. lia.
  - destruct (N.ltb_spec c 0x110000); [eauto|]. lia.
Qed.

Lemma encode_total text :
  forallb scalar text = true -> exists bs, encode text = Ok bs.
Proof.
  induction text as [|c text IH]; simpl; [eauto|]. intros H.
  apply andb_true_iff in H as [Hc H].
  destruct (encode_char_scalar _ Hc) as [bs ->].
  destruct (IH H) as [rest ->]. simpl. eauto.
Qed.

Lemma sub_total (P Q : char -> bool) o1 o2 c1 c2 repl :
  (forall c, P c = true -> Q c = true) ->
  (forall X, forallb P X = true ->
             exists y, repl X = Ok y /\ forallb Q y = true) ->
  forall s, forallb P s = true ->
            exists out, Re.sub o1 o2 c1 c2 repl s = Ok out
                        /\ forallb Q out = true.
Proof.
  intros HPQ Hrepl s. remember (length s) as n eqn:Hn. revert s Hn.
  induction n as [n IH] using lt_wf_ind. intros [|a s'] Hn Hs.
  - rewrite Re.sub_equation_1. eauto.
  - rewrite sub_cons.
    destruct (Re.match_pair o1 o2 c1 c2 (a :: s')) as [[X r]|] eqn:E.
    + pose proof (match_pair_length _ _ _ _ _ _ _ E) as Hlen.
      apply (match_pair_some o1 o2 c1 c2) in E as (E & _ & _).
      rewrite E in Hs. change (o1 :: o2 :: X ++ c1 :: c2 :: r)
        with ([o1; o2] ++ X ++ [c1; c2] ++ r) in Hs.
      rewrite !forallb_app in Hs.
      apply andb_true_iff in Hs as [_ Hs].
      apply andb_true_iff in Hs as [HX Hs].
      apply andb_true_iff in Hs as [_ Hr].
      destruct (Hrepl _ HX) as (y & -> & Hy).
      destruct (IH (length r) ltac:(lia) r eq_refl Hr) as (out & -> & Hout).
      eexists. split; [reflexivity|]. rewrite forallb_app.
      now rewrite Hy, Hout.
    + simpl in Hs. apply andb_true_iff in Hs as [Ha Hs].
      destruct (IH (length s') ltac:(simpl in Hn; lia) s' eq_refl Hs)
        as (out & -> & Hout).
      eexists. split; [reflexivity|]. simpl. now rewrite (HPQ _ Ha), Hout.
Qed.

(** On a line of code points that UTF-8 encodes the translator returns a
    value: it is the unpacking of that value that can raise. *)
Lemma process_markdown_line_total line :
  forallb scalar line = true -> exists v, process_markdown_line line = Ok v.
Proof.
  intros Hline. unfold process_markdown_line.
  destruct (Re.match_heading line) as [[g1 g2]|]; [eauto|].
  destruct (truthy_match (Re.match_item (chr "-") line)); [eauto|].
  destruct (truthy_match (Re.match_item (chr "*") line)); [eauto|].
  unfold substitute.
  destruct (sub_total scalar scalar (chr "*") (chr "*") (chr "*") (chr "*")
              bold (fun c H => H)) with (s := line) as (l1 & -> & H1);
    [|assumption|].
  { intros X HX. eexists. split; [reflexivity|].
    rewrite !forallb_app, HX. reflexivity. }
  cbn [bind].
  destruct (sub_total scalar scalar (chr "_") (chr "_") (chr "_") (chr "_")
              emphasis (fun c H => H)) with (s := l1) as (l2 & -> & H2);
    [|assumption|].
  { intros X HX. eexists. split; [reflexivity|].
    rewrite !forallb_app, HX. reflexivity. }
  cbn [bind].
  destruct (sub_total scalar (fun _ => true) (chr "[") (chr "[") (chr "]")
              (chr "]") convert_to_md5 (fun c H => eq_refl))
    with (s := l2) as (l3 & -> & H3); [|assumption|].
  { intros X HX. unfold convert_to_md5.
    destruct (encode_total _ HX) as [bs ->]. cbn [bind]. eexists.
    split; [reflexivity|]. apply forallb_forall. reflexivity. }
  cbn [bind].
  destruct (sub_total (fun _ => true) (fun _ => true) (chr "(") (chr "(")
              (chr ")") (chr ")") (fun x : str => Ok (remove_c_from_text x))
              (fun c H => eq_refl)) with (s := l3) as (l4 & -> & H4);
    [|assumption|].
  { intros X HX. eexists. split; [reflexivity|].
    apply forallb_forall. reflexivity. }
  cbn [bind]. eauto.
Qed.

(** ** Where the loop departs from the documented conversion *)

(** The list branches of the loop never read [html_line]. *)
Lemma dispatch_item_ignores_fragment st frag frag' tag :
  tag = py "ul" \/ tag = py "ol" ->
  dispatch st frag tag = dispatch st frag' tag.
Proof.
  destruct st as [html lt]. intros [->| ->]; reflexivity.
Qed.

(** A bare [str] unpacks only when it has two characters. *)
Lemma unpack2_str s :
  length s <> 2%nat -> unpack2 (PStr s) = Raise ValueError.
Proof.
  destruct s as [|a [|b [|c s]]]; simpl; intros H; try reflexivity. lia.
Qed.

(** Every heading line stops the loop with [ValueError]. *)
Lemma heading_line_raises st raw :
  Re.match_heading (rstrip raw) <> None ->
  loop_body st raw = Raise ValueError.
Proof.
  intros H. unfold loop_body, process_markdown_line.
  destruct (Re.match_heading (rstrip raw)) as [[g1 g2]|]; [|congruence].
  cbn [bind]. rewrite unpack2_str; [reflexivity|].
  rewrite !length_app. simpl. lia.
Qed.

Lemma sub_raise o1 o2 c1 c2 repl e0 :
  (forall X e, repl X = Raise e -> e = e0) ->
  forall s e, Re.sub o1 o2 c1 c2 repl s = Raise e -> e = e0.
Proof.
  intros Hrepl s. remember (length s) as n eqn:Hn. revert s Hn.
  induction n as [n IH] using lt_wf_ind. intros [|a s'] Hn e.
  - rewrite Re.sub_equation_1. discriminate.
  - rewrite sub_cons.
    destruct (Re.match_pair o1 o2 c1 c2 (a :: s')) as [[X r]|] eqn:E.
    + pose proof (match_pair_length _ _ _ _ _ _ _ E) as Hlen.
      destruct (repl X) as [y|e'] eqn:Hy.
      * destruct (Re.sub o1 o2 c1 c2 repl r) as [out|e'] eqn:Hr;
          [discriminate|]. intros [= <-].
        apply (IH (length r) ltac:(lia) r eq_refl _ Hr).
      * intros [= <-]. apply (Hrepl _ _ Hy).
    + destruct (Re.sub o1 o2 c1 c2 repl s') as [out|e'] eqn:Hr;
        [discriminate|]. intros [= <-].
      apply (IH (length s') ltac:(simpl in Hn; lia) s' eq_refl _ Hr).
Qed.

Lemma encode_raise text e : encode text = Raise e -> e = UnicodeEncodeError.
Proof.
  induction text as [|c text IH]; simpl; [discriminate|].
  destruct (encode_char c) as [bs|e'] eqn:Hc; cbn [bind].
  - destruct (encode text) as [rest|e'']; cbn [bind]; [discriminate|].
    intros [= <-]. now apply IH.
  - intros [= <-]. unfold encode_char in Hc.
    repeat match type of Hc with
           | (if ?b then _ else _) = _ => destruct b
           end; congruence.
Qed.

(** The translator raises nothing but [UnicodeEncodeError]. *)
Lemma process_markdown_line_raise line e :
  process_markdown_line line = Raise e -> e = UnicodeEncodeError.
Proof.
  unfold process_markdown_line.
  destruct (Re.match_heading line) as [[g1 g2]|]; [discriminate|].
  destruct (truthy_match (Re.match_item (chr "-") line)); [discriminate|].
  destruct (truthy_match (Re.match_item (chr "*") line)); [discriminate|].
  unfold substitute.
  destruct (Re.sub _ _ _ _ bold line) as [l1|e1] eqn:H1; cbn [bind].
  2:{ intros [= <-]. eapply sub_raise; [|exact H1]. discriminate. }
  destruct (Re.sub _ _ _ _ emphasis l1) as [l2|e2] eqn:H2; cbn [bind].
  2:{ intros [= <-]. eapply sub_raise; [|exact H2]. discriminate. }
  destruct (Re.sub _ _ _ _ convert_to_md5 l2) as [l3|e3] eqn:H3; cbn [bind].
  2:{ intros [= <-]. eapply sub_raise; [|exact H3].
      intros X e'. unfold convert_to_md5.
      destruct (encode X) as [bs|e''] eqn:HX; cbn [bind]; [discriminate|].
      intros [= <-]. exact (encode_raise _ _ HX). }
  destruct (Re.sub _ _ _ _ _ l3) as [l4|e4] eqn:H4; cbn [bind];
    [discriminate|].
  intros [= <-]. eapply sub_raise; [|exact H4]. discriminate.
Qed.

(** The loop raises [ValueError] exactly on a bare [str] that is not two
    characters long. *)
Lemma loop_body_raises st raw :
  loop_body st raw = Raise ValueError <->
  exists s, process_markdown_line (rstrip raw) = Ok (PStr s)
            /\ length s <> 2%nat.
Proof.
  unfold loop_body. split.
  - destruct (process_markdown_line (rstrip raw)) as [[s|a b]|e] eqn:Hp;
      cbn [bind unpack2]; try discriminate.
    + intros H. exists s. split; [reflexivity|].
      destruct s as [|x [|y [|z s]]]; simpl; try lia. discriminate H.
    + intros [= ->]. apply process_markdown_line_raise in Hp. discriminate.
  - intros (s & -> & Hs). cbn [bind]. now rewrite unpack2_str.
Qed.

(** C1.  The loop does not complete on every line: a heading line, and a
    regular line of more than two characters, make the unpacking of the
    translator's bare string raise [ValueError], and [main] ends there. *)
Theorem main_raises_on_bare_string :
  process_markdown_line (py "# Title") = Ok (PStr (py "<h1>Title</h1>"))
  /\ unpack2 (PStr (py "<h1>Title</h1>")) = Raise ValueError
  /\ main [py "# Title"] = Raise ValueError
  /\ process_markdown_line (py "Normal text") = Ok (PStr (py "Normal text"))
  /\ main [py "Normal text"] = Raise ValueError.
Proof. repeat split. Qed.

(** C2.  On the five lines of the end-to-end example [main] writes nothing:
    the first line, a heading, raises [ValueError] in the loop. *)
Theorem end_to_end_raises :
  main [py "# Title"; py "- one"; py "- two"; py "Normal **text**."; py ""]
  = Raise ValueError
  /\ main [py "# Title"; py "- one"; py "- two"; py "Normal **text**."; py ""]
     <> Ok (join_lines [py "<h1>Title</h1>"; py "<ul>"; py "<li>one</li>";
                        py "<li>two</li>"; py "</ul>";
                        py "Normal <b>text</b>."; py "<p>"]).
Proof. split; [reflexivity|discriminate]. Qed.

(** The table of the loop as the source has it: open list by tag. *)
Lemma dispatch_table html frag :
  let none := mk_acc html None in
  let ul := mk_acc html (Some (py "ul")) in
  let ol := mk_acc html (Some (py "ol")) in
  dispatch none frag (py "ul") = mk_acc (html ++ [py "<ul>"]) (Some (py "ul"))
  /\ dispatch none frag (py "ol")
     = mk_acc (html ++ [py "<ol>"]) (Some (py "ol"))
  /\ dispatch none frag (py "newline") = mk_acc (html ++ [py "<p>"]) None
  /\ dispatch ul frag (py "ul") = ul
  /\ dispatch ul frag (py "ol")
     = mk_acc (html ++ [py "</ul>"; py "<ol>"]) (Some (py "ol"))
  /\ dispatch ul frag (py "newline")
     = mk_acc (html ++ [py "</ul>"; py "<p>"]) None
  /\ dispatch ol frag (py "ul")
     = mk_acc (html ++ [py "</ol>"; py "<ul>"]) (Some (py "ul"))
  /\ dispatch ol frag (py "ol") = ol
  /\ dispatch ol frag (py "newline")
     = mk_acc (html ++ [py "</ol>"; py "<p>"]) None
  /\ (forall tag,
        tag <> py "ul" -> tag <> py "ol" -> tag <> py "newline" ->
        dispatch none frag tag = mk_acc (html ++ [frag]) None
        /\ dispatch ul frag tag = mk_acc (html ++ [py "</ul>"; frag]) None
        /\ dispatch ol frag tag = mk_acc (html ++ [py "</ol>"; frag]) None).
Proof.
  cbv zeta. unfold dispatch. cbn [differs truthy_opt close_if_open].
  repeat (split; [simpl; rewrite <- ?app_assoc; reflexivity|]).
  intros tag H1 H2 H3. rewrite !str_eqb_neq by assumption.
  simpl. rewrite <- !app_assoc. repeat split.
Qed.

(** C3.  The fragment of a list item is not appended: on the pair of
    <li>one</li> and "ul" the loop appends the opening tag alone, and the
    lines "- one", "* two" give two empty lists. *)
Theorem list_fragment_not_appended :
  dispatch init_acc (py "<li>one</li>") (py "ul")
  = mk_acc [py "<ul>"] (Some (py "ul"))
  /\ finish (dispatch init_acc (py "<li>one</li>") (py "ul"))
     = [py "<ul>"; py "</ul>"]
  /\ dispatch (mk_acc [py "<ul>"] (Some (py "ul")))
       (py "<li>two</li>") (py "ol")
     = mk_acc [py "<ul>"; py "</ul>"; py "<ol>"] (Some (py "ol"))
  /\ main [py "- one"; py "* two"]
     = Ok (join_lines [py "<ul>"; py "</ul>"; py "<ol>"; py "</ol>"]).
Proof. repeat split. Qed.

(** * Further properties of the source *)

(** ** remove_c_from_text and convert_to_md5 *)

(** X1.  [remove_c_from_text] keeps, in their order, exactly the characters
    that are neither c nor C: a character is in the result when it is in
    the text and is neither; the function distributes over concatenation,
    applied twice it gives what it gives once, it never lengthens the text,
    and it returns the text itself exactly when the text holds no c and no
    C. *)
Theorem remove_c_from_text_keeps_the_rest :
  forall X Y,
    remove_c_from_text X
    = filter (fun ch => negb ((ch =? chr "c") || (ch =? chr "C"))) X
    /\ (forall ch, In ch (remove_c_from_text X)
                <-> In ch X /\ ch <> chr "c" /\ ch <> chr "C")
    /\ remove_c_from_text (X ++ Y)
       = remove_c_from_text X ++ remove_c_from_text Y
    /\ remove_c_from_text (remove_c_from_text X) = remove_c_from_text X
    /\ (length (remove_c_from_text X) <= length X)%nat
    /\ (remove_c_from_text X = X
        <-> ~ In (chr "c") X /\ ~ In (chr "C") X).
Proof.
  intros X Y.
  assert (Hin : forall Z ch, In ch (remove_c_from_text Z)
                  <-> In ch Z /\ ch <> chr "c" /\ ch <> chr "C").
  { intros Z ch. rewrite remove_c_from_text_delete. unfold delete_c.
    rewrite filter_In, negb_true_iff, orb_false_iff, !N.eqb_neq. tauto. }
  split; [apply remove_c_from_text_delete|].
  split; [apply Hin|]. split; [|split; [|split]].
  - rewrite !remove_c_from_text_delete. apply filter_app.
  - rewrite !remove_c_from_text_delete. unfold delete_c.
    induction X as [|ch X IH]; [reflexivity|]. cbn [filter].
    destruct (negb ((ch =? chr "c") || (ch =? chr "C"))) eqn:E;
      [|exact IH]. cbn [filter]. now rewrite E, IH.
  - rewrite remove_c_from_text_delete. apply filter_length_le.
  - split.
    + intros E. split; intros H; rewrite <- E in H; apply Hin in H; tauto.
    + intros [Hc HC]. rewrite remove_c_from_text_delete. unfold delete_c.
      induction X as [|ch X IH]; [reflexivity|]. cbn [filter].
      destruct (N.eqb_spec ch (chr "c")) as [->|_];
        [destruct Hc; now left|].
      destruct (N.eqb_spec ch (chr "C")) as [->|_];
        [destruct HC; now left|].
      cbn [orb negb]. f_equal. apply IH; intros H; [apply Hc|apply HC];
        now right.
Qed.

Lemma encode_char_not_scalar c :
  scalar c = false -> encode_char c = Raise UnicodeEncodeError.
Proof.
  unfold scalar. intros H. apply orb_false_iff in H as [H1 H2].
  apply N.ltb_ge in H1. apply andb_false_iff in H2.
  assert (Hc : c <= 0xDFFF \/ 0x110000 <= c).
  { destruct H2 as [H2|H2]; [left|right]; now apply N.ltb_ge. }
  clear H2. unfold encode_char.
  destruct (N.ltb_spec c 0x80); [lia|].
  destruct (N.ltb_spec c 0x800); [lia|].
  destruct (N.ltb_spec c 0x10000).
  - destruct (N.leb_spec 0xD800 c); [|lia].
    destruct (N.leb_spec c 0xDFFF); [reflexivity|lia].
  - destruct (N.ltb_spec c 0x110000); [lia|reflexivity].
Qed.

Lemma encode_not_scalar text :
  forallb scalar text = false -> encode text = Raise UnicodeEncodeError.
Proof.
  induction text as [|c text IH]; [discriminate|]. cbn [forallb encode].
  destruct (scalar c) eqn:Hc; cbn [andb].
  - intros H. destruct (encode_char_scalar _ Hc) as [bs ->]. cbn [bind].
    now rewrite (IH H).
  - intros _. now rewrite (encode_char_not_scalar _ Hc).
Qed.

(** X2.  [convert_to_md5] returns 32 lowercase hexadecimal digits when
    every code point of the text can be UTF-8 encoded, and raises
    [UnicodeEncodeError] when one cannot (a surrogate). *)
Theorem convert_to_md5_digest_or_raise :
  forall text,
    (forallb scalar text = true ->
       exists d, convert_to_md5 text = Ok d /\ length d = 32%nat
                 /\ forallb lower_hex d = true)
    /\ (forallb scalar text = false ->
          convert_to_md5 text = Raise UnicodeEncodeError).
Proof.
  intros text. unfold convert_to_md5. split; intros H.
  - destruct (encode_total _ H) as [bs ->]. cbn [bind]. eexists.
    split; [reflexivity|]. split; [apply hexdigest_length|].
    apply hexdigest_lower.
  - now rewrite (encode_not_scalar _ H).
Qed.

Lemma convert_to_md5_digest_or_raise_witness :
  (exists d, convert_to_md5 (py "abc") = Ok d /\ length d = 32%nat
             /\ forallb lower_hex d = true)
  /\ convert_to_md5 [97; 0xD800] = Raise UnicodeEncodeError.
Proof.
  split.
  - apply (proj1 (convert_to_md5_digest_or_raise (py "abc"))). reflexivity.
  - apply (proj2 (convert_to_md5_digest_or_raise [97; 0xD800])). reflexivity.
Defined.

(** ** What process_markdown_line returns *)

Lemma match_item_true c line :
  truthy_match (Re.match_item c line) = true ->
  exists rest, line = c :: chr " " :: rest.
Proof.
  unfold Re.match_item. destruct line as [|x [|y rest]]; try discriminate.
  destruct (N.eqb_spec x c) as [->|]; [|discriminate].
  destruct (N.eqb_spec y (chr " ")) as [->|]; [|discriminate]. eauto.
Qed.

(** X3.  The shapes of the translator's results.  A pair has the tag "ul",
    "ol" or "newline": with "ul" (resp. "ol") the line starts with a dash
    (resp. a star) and a space and the fragment is the rest between <li>
    and </li>; with "newline" the fragment is empty and the substituted
    line is blank.  A bare string is never blank. *)
Theorem process_markdown_line_shapes :
  forall line v,
    process_markdown_line line = Ok v ->
    match v with
    | PTuple a b =>
        (b = py "ul" /\ exists rest, line = chr "-" :: chr " " :: rest
                                     /\ a = py "<li>" ++ rest ++ py "</li>")
        \/ (b = py "ol" /\ exists rest, line = chr "*" :: chr " " :: rest
                                        /\ a = py "<li>" ++ rest ++ py "</li>")
        \/ (b = py "newline" /\ a = []
            /\ exists t, substitute line = Ok t /\ forallb isspace t = true)
    | PStr s => forallb isspace s = false
    end.
Proof.
  intros line v. unfold process_markdown_line.
  destruct (Re.match_heading line) as [[g1 g2]|].
  { intros [= <-]. reflexivity. }
  destruct (truthy_match (Re.match_item (chr "-") line)) eqn:Hd.
  { intros [= <-]. apply match_item_true in Hd as [rest ->]. left. eauto. }
  destruct (truthy_match (Re.match_item (chr "*") line)) eqn:Hs.
  { intros [= <-]. apply match_item_true in Hs as [rest ->].
    right; left. eauto. }
  destruct (substitute line) as [t|e]; [|discriminate]. cbn [bind].
  intros [= <-]. unfold paragraph.
  destruct (truthy (strip t)) eqn:Ht; cbn [negb].
  - destruct (forallb isspace t) eqn:Hb; [|reflexivity].
    apply blank_iff in Hb. congruence.
  - right; right. apply blank_iff in Ht. eauto.
Qed.

Lemma process_markdown_line_shapes_witness :
  (exists rest, py "- one" = chr "-" :: chr " " :: rest
                /\ py "<li>one</li>" = py "<li>" ++ rest ++ py "</li>")
  /\ forallb isspace (py "a  ") = false.
Proof.
  split.
  - destruct (process_markdown_line_shapes (py "- one")
                (PTuple (py "<li>one</li>") (py "ul")) eq_refl)
      as [[_ H]|[[H _]|[H _]]]; [exact H|discriminate H|discriminate H].
  - exact (process_markdown_line_shapes (py "a  ") (PStr (py "a  ")) eq_refl).
Defined.

(** X4.  The translator raises nothing but [UnicodeEncodeError], and only
    on a line that is neither a heading nor a list item and holds a code
    point that cannot be UTF-8 encoded; on every line of encodable code
    points it returns a value. *)
Theorem process_markdown_line_raises_only_on_surrogates :
  forall line,
    (forall e, process_markdown_line line = Raise e ->
               e = UnicodeEncodeError
               /\ forallb scalar line = false
               /\ Re.match_heading line = None
               /\ Re.match_item (chr "-") line = None
               /\ Re.match_item (chr "*") line = None)
    /\ (forallb scalar line = true ->
          exists v, process_markdown_line line = Ok v).
Proof.
  intros line. split; [|apply process_markdown_line_total].
  intros e H. split; [exact (process_markdown_line_raise _ _ H)|]. split.
  - destruct (forallb scalar line) eqn:Hs; [|reflexivity].
    destruct (process_markdown_line_total _ Hs) as [v Hv]. congruence.
  - unfold process_markdown_line in H.
    destruct (Re.match_heading line) as [[g1 g2]|]; [discriminate|].
    destruct (Re.match_item (chr "-") line); [discriminate|].
    destruct (Re.match_item (chr "*") line); [discriminate|]. auto.
Qed.

Lemma process_markdown_line_raises_only_on_surrogates_witness :
  (UnicodeEncodeError = UnicodeEncodeError
   /\ forallb scalar (py "[[" ++ [0xDC00] ++ py "]]") = false
   /\ Re.match_heading (py "[[" ++ [0xDC00] ++ py "]]") = None
   /\ Re.match_item (chr "-") (py "[[" ++ [0xDC00] ++ py "]]") = None
   /\ Re.match_item (chr "*") (py "[[" ++ [0xDC00] ++ py "]]") = None)
  /\ exists v, process_markdown_line (py "plain text") = Ok v.
Proof.
  split.
  - exact (proj1 (process_markdown_line_raises_only_on_surrogates
                    (py "[[" ++ [0xDC00] ++ py "]]"))
             UnicodeEncodeError eq_refl).
  - exact (proj2 (process_markdown_line_raises_only_on_surrogates
                    (py "plain text")) eq_refl).
Defined.

(** ** The loop of main, line by line *)

(** What the loop body hands to the [if]/[elif] chain: the translated and
    unpacked line. *)
Definition unpacked (raw : str) : result (str * str) :=
  v <- process_markdown_line (rstrip raw) ;; unpack2 v.

Lemma loop_body_unpacked st raw :
  loop_body st raw
  = (p <- unpacked raw ;; Ok (dispatch st (fst p) (snd p))).
Proof.
  unfold loop_body, unpacked.
  destruct (process_markdown_line (rstrip raw)) as [v|e]; [|reflexivity].
  cbn [bind]. destruct (unpack2 v); reflexivity.
Qed.

Lemma loop_body_raise_any_state st st' raw e :
  loop_body st raw = Raise e -> loop_body st' raw = Raise e.
Proof.
  rewrite !loop_body_unpacked. destruct (unpacked raw); [discriminate|].
  exact (fun H => H).
Qed.

Lemma loop_body_ok_any_state st st' raw r :
  loop_body st raw = Ok r -> exists r', loop_body st' raw = Ok r'.
Proof.
  rewrite !loop_body_unpacked. destruct (unpacked raw); [|discriminate].
  cbn [bind]. eauto.
Qed.

Lemma loop_app l1 l2 st :
  loop (l1 ++ l2) st = (st' <- loop l1 st ;; loop l2 st').
Proof.
  revert st. induction l1 as [|raw l1 IH]; intros st; [reflexivity|].
  cbn [app loop]. destruct (loop_body st raw) as [st1|e]; [|reflexivity].
  cbn [bind]. apply IH.
Qed.

Lemma loop_all_convert lines : forall st,
  Forall (fun raw => exists r, loop_body init_acc raw = Ok r) lines ->
  exists st', loop lines st = Ok st'.
Proof.
  induction lines as [|raw lines IH]; intros st H; [simpl; eauto|].
  inversion H as [|? ? [r Hr] Hrest]; subst. cbn [loop].
  destruct (loop_body_ok_any_state _ st _ _ Hr) as [r' ->]. cbn [bind].
  now apply IH.
Qed.

(** X5.  Whether [main] completes is decided line by line, whatever was
    read before: [main] returns a text exactly when every line alone goes
    through the loop body, and otherwise it raises what the first line
    that does not go through raises. *)
Theorem main_completes_line_by_line :
  (forall lines,
     (exists text, main lines = Ok text)
     <-> Forall (fun raw => exists r, loop_body init_acc raw = Ok r) lines)
  /\ (forall good bad rest e,
        Forall (fun raw => exists r, loop_body init_acc raw = Ok r) good ->
        loop_body init_acc bad = Raise e ->
        main (good ++ bad :: rest) = Raise e).
Proof.
  split.
  - intros lines. unfold main. split.
    + intros [text H]. apply bind_ok in H as (st' & H & _).
      revert H. generalize init_acc at 1. revert st'.
      induction lines as [|raw lines IH]; intros st' st H; [constructor|].
      cbn [loop] in H. apply bind_ok in H as (st1 & H1 & H).
      constructor; [|exact (IH _ _ H)].
      exact (loop_body_ok_any_state _ _ _ _ H1).
    + intros H. destruct (loop_all_convert _ init_acc H) as [st' ->].
      cbn [bind]. eauto.
  - intros good bad rest e Hgood Hbad. unfold main. rewrite loop_app.
    destruct (loop_all_convert _ init_acc Hgood) as [st' ->].
    cbn [bind loop]. now rewrite (loop_body_raise_any_state _ st' _ _ Hbad).
Qed.

Lemma main_completes_line_by_line_witness :
  (exists text, main [py "- a"; py ""; py "hi"] = Ok text)
  /\ main [py "- a"; py "hi"; py "# T"; py "x"] = Raise ValueError.
Proof.
  destruct main_completes_line_by_line as [Hiff Hfirst]. split.
  - apply Hiff. repeat constructor; eexists; reflexivity.
  - apply (Hfirst [py "- a"; py "hi"] (py "# T") [py "x"]).
    + repeat constructor; eexists; reflexivity.
    + reflexivity.
Defined.

(** X6.  An input that holds a heading line is never converted.  The
    heading line itself stops the loop with [ValueError], whatever was read
    before; so [main] raises [ValueError] at the first heading line when
    the lines before it go through the loop, and raises in any case. *)
Theorem main_raises_on_any_heading :
  (forall st raw,
     Re.match_heading (rstrip raw) <> None ->
     loop_body st raw = Raise ValueError)
  /\ (forall good raw rest,
        Forall (fun l => exists r, loop_body init_acc l = Ok r) good ->
        Re.match_heading (rstrip raw) <> None ->
        main (good ++ raw :: rest) = Raise ValueError)
  /\ (forall lines,
        Exists (fun raw => Re.match_heading (rstrip raw) <> None) lines ->
        exists e, main lines = Raise e).
Proof.
  split; [exact heading_line_raises|]. split.
  - intros good raw rest Hgood Hraw. unfold main. rewrite loop_app.
    destruct (loop_all_convert _ init_acc Hgood) as [st' ->].
    cbn [bind loop]. now rewrite (heading_line_raises st' raw Hraw).
  - intros lines H. unfold main.
    enough (forall st, exists e, loop lines st = Raise e) as E.
    { destruct (E init_acc) as [e ->]. cbn [bind]. eauto. }
    induction H as [raw lines H|raw lines _ IH]; intros st; cbn [loop].
    + rewrite (heading_line_raises st raw H). cbn [bind]. eauto.
    + destruct (loop_body st raw) as [st1|e]; cbn [bind]; [apply IH|eauto].
Qed.

Lemma main_raises_on_any_heading_witness :
  main [py "- one"; py ""; py "## Two"; py "- three"] = Raise ValueError.
Proof.
  apply (proj1 (proj2 main_raises_on_any_heading)
           [py "- one"; py ""] (py "## Two") [py "- three"]).
  - repeat constructor; eexists; reflexivity.
  - discriminate.
Defined.

Lemma rstrip_last_not_space raw c : rstrip raw = [c] -> isspace c = false.
Proof.
  intros H. destruct (isspace c) eqn:Hc; [|reflexivity].
  assert (E : rstrip raw = []).
  { apply rstrip_space. rewrite H. simpl. now rewrite Hc. }
  congruence.
Qed.

Lemma process_one_char c :
  isspace c = false -> process_markdown_line [c] = Ok (PStr [c]).
Proof.
  intros Hc. rewrite process_plain.
  - rewrite substitute_no_token by (apply no_occurrence; reflexivity).
    cbn [bind]. rewrite paragraph_text; [reflexivity|]. simpl.
    now rewrite Hc.
  - unfold Re.match_heading. cbn [Re.heading_try Re.strip_run].
    destruct (c =? chr "#"); reflexivity.
  - reflexivity.
  - reflexivity.
Qed.

(** X7.  A line that is a single character once its trailing whitespace is
    stripped stops the loop with [ValueError], whatever came before: the
    translator returns it bare and one character does not unpack into
    two.  So does an empty list item, a dash or a star followed by
    whitespace only. *)
Theorem one_character_line_raises :
  (forall st raw c, rstrip raw = [c] -> loop_body st raw = Raise ValueError)
  /\ (forall st c ws,
        isspace c = false -> forallb isspace ws = true ->
        loop_body st (c :: ws) = Raise ValueError).
Proof.
  assert (H : forall st raw c,
             rstrip raw = [c] -> loop_body st raw = Raise ValueError).
  { intros st raw c Hraw. unfold loop_body. rewrite Hraw.
    rewrite (process_one_char c (rstrip_last_not_space _ _ Hraw)).
    reflexivity. }
  split; [exact H|]. intros st c ws Hc Hws. apply (H st _ c).
  cbn [rstrip]. apply rstrip_nil in Hws. now rewrite Hws, Hc.
Qed.

Lemma one_character_line_raises_witness :
  loop_body (mk_acc [py "<ul>"] (Some (py "ul"))) (py "-  ")
  = Raise ValueError
  /\ main [py "x"] = Raise ValueError.
Proof.
  split.
  - apply (proj2 one_character_line_raises _ (chr "-") (py "  "));
      reflexivity.
  - unfold main, loop.
    now rewrite (proj1 one_character_line_raises init_acc (py "x") (chr "x")
                   eq_refl).
Defined.

(** ** What the output is made of *)

(** One of the five tag lines of [main], or a single character. *)
Definition tag_or_character (l : str) : Prop :=
  In l [py "<ul>"; py "</ul>"; py "<ol>"; py "</ol>"; py "<p>"]
  \/ length l = 1%nat.

Definition alphabet_invariant (st : acc) : Prop :=
  Forall tag_or_character (html_lines st)
  /\ exists o, list_type st = list_type_of o.

Lemma close_if_open_alphabet html o :
  Forall tag_or_character html ->
  Forall tag_or_character (close_if_open html (list_type_of o)).
Proof.
  intros H. destruct o as [[|]|]; simpl; [| |exact H];
    (apply Forall_app; split; [exact H|]);
    (apply Forall_cons; [left; simpl; tauto|constructor]).
Qed.

Lemma dispatch_alphabet st frag tag :
  alphabet_invariant st ->
  (tag <> py "ul" -> tag <> py "ol" -> tag <> py "newline" ->
   length frag = 1%nat) ->
  alphabet_invariant (dispatch st frag tag).
Proof.
  destruct st as [html lt]. intros [Hhtml (o & Hlt)] Hfrag.
  simpl in Hhtml, Hlt. subst lt.
  pose proof (close_if_open_alphabet _ o Hhtml) as Hclose.
  unfold dispatch, alphabet_invariant. cbn [html_lines list_type].
  assert (Htag : forall l, In l [py "<ul>"; py "</ul>"; py "<ol>";
                                py "</ol>"; py "<p>"] ->
                           Forall tag_or_character [l]).
  { intros l Hl. apply Forall_cons; [now left|constructor]. }
  destruct (list_eq_dec N.eq_dec tag (py "ul")) as [->|Hul].
  { rewrite str_eqb_refl. cbn [html_lines list_type].
    split; [|now exists (Some UL)].
    destruct (differs (list_type_of o) (py "ul")); [|exact Hhtml].
    apply Forall_app. split; [exact Hclose|]. apply Htag. simpl. tauto. }
  rewrite (str_eqb_neq _ _ Hul).
  destruct (list_eq_dec N.eq_dec tag (py "ol")) as [->|Hol].
  { rewrite str_eqb_refl. cbn [html_lines list_type].
    split; [|now exists (Some OL)].
    destruct (differs (list_type_of o) (py "ol")); [|exact Hhtml].
    apply Forall_app. split; [exact Hclose|]. apply Htag. simpl. tauto. }
  rewrite (str_eqb_neq _ _ Hol).
  destruct (list_eq_dec N.eq_dec tag (py "newline")) as [->|Hnl].
  { rewrite str_eqb_refl. cbn [html_lines list_type]. split.
    - apply Forall_app. split; [exact Hclose|]. apply Htag. simpl. tauto.
    - exists None. now destruct o as [[|]|]. }
  rewrite (str_eqb_neq _ _ Hnl). cbn [html_lines list_type]. split.
  - apply Forall_app. split; [exact Hclose|].
    apply Forall_cons; [right; auto|constructor].
  - exists None. now destruct o as [[|]|].
Qed.

Lemma loop_body_alphabet st raw st' :
  alphabet_invariant st -> loop_body st raw = Ok st' ->
  alphabet_invariant st'.
Proof.
  intros Hinv. unfold loop_body.
  destruct (process_markdown_line (rstrip raw)) as [v|] eqn:Hv;
    [|discriminate]. cbn [bind].
  destruct v as [s|a b].
  - destruct s as [|a [|b [|c s]]]; try discriminate.
    cbn [unpack2 bind fst snd]. intros [= <-].
    apply dispatch_alphabet; [assumption|reflexivity].
  - cbn [unpack2 bind fst snd]. intros [= <-].
    apply dispatch_alphabet; [assumption|].
    intros H1 H2 H3. apply process_tuple_tag in Hv. tauto.
Qed.

Lemma loop_alphabet lines : forall st0 st,
  alphabet_invariant st0 -> loop lines st0 = Ok st -> alphabet_invariant st.
Proof.
  induction lines as [|raw lines IH]; intros st0 st H0; cbn [loop].
  - intros H. assert (E : st = st0) by congruence. now rewrite E.
  - intros H. apply bind_ok in H as (st1 & H1 & H).
    exact (IH _ _ (loop_body_alphabet _ _ _ H0 H1) H).
Qed.

Lemma init_alphabet : alphabet_invariant init_acc.
Proof. split; [constructor|now exists None]. Qed.

Lemma finish_alphabet st :
  alphabet_invariant st -> Forall tag_or_character (finish st).
Proof.
  destruct st as [html lt]. intros [Hhtml (o & Hlt)].
  simpl in Hhtml, Hlt. subst lt. unfold finish. cbn [html_lines list_type].
  now apply close_if_open_alphabet.
Qed.

(** X8.  Whenever the loop completes, every line [main] puts out is one
    of <ul>, </ul>, <ol>, </ol>, <p>, or a single character; no output
    line is a list item, and every output line has one to five
    characters. *)
Theorem output_lines_are_tags_or_characters :
  forall lines st,
    loop lines init_acc = Ok st ->
    Forall tag_or_character (finish st)
    /\ Forall (fun l => is_item l = false) (finish st)
    /\ Forall (fun l => (1 <= length l <= 5)%nat) (finish st).
Proof.
  intros lines st H.
  pose proof (finish_alphabet _ (loop_alphabet _ _ _ init_alphabet H))
    as Hall.
  split; [exact Hall|]. split; (eapply Forall_impl; [|exact Hall]).
  - intros l [Hl|Hl].
    + simpl in Hl. destruct Hl as [<-|[<-|[<-|[<-|[<-|[]]]]]]; reflexivity.
    + unfold is_item. apply str_eqb_length.
      destruct l as [|x [|y l]]; simpl in *; lia.
  - intros l [Hl|Hl]; [|lia].
    simpl in Hl. destruct Hl as [<-|[<-|[<-|[<-|[<-|[]]]]]]; simpl; lia.
Qed.

Lemma output_lines_are_tags_or_characters_witness :
  Forall tag_or_character
    [py "<ul>"; py "</ul>"; py "h"; py "<ol>"; py "</ol>"].
Proof.
  exact (proj1 (output_lines_are_tags_or_characters
                  [py "- a"; py "- b"; py "hi"; py "* c"]
                  (mk_acc [py "<ul>"; py "</ul>"; py "h"; py "<ol>"]
                          (Some (py "ol")))
                  eq_refl)).
Defined.

(** ** Whitespace and blank lines *)

Lemma rstrip_app_space raw ws :
  forallb isspace ws = true -> rstrip (raw ++ ws) = rstrip raw.
Proof.
  intros Hws. induction raw as [|c raw IH]; cbn [app rstrip].
  - now apply rstrip_nil.
  - now rewrite IH.
Qed.

(** X9.  Whitespace at the end of a line plays no role: the loop body does
    the same on a line and on the line followed by whitespace, so [main]
    gives the same on lines with and without their line terminators. *)
Theorem trailing_whitespace_is_ignored :
  (forall st raw ws,
     forallb isspace ws = true ->
     loop_body st (raw ++ ws) = loop_body st raw)
  /\ (forall lines,
        main (map (fun raw => raw ++ [Re.newline]) lines) = main lines).
Proof.
  assert (H : forall st raw ws,
             forallb isspace ws = true ->
             loop_body st (raw ++ ws) = loop_body st raw).
  { intros st raw ws Hws. unfold loop_body.
    now rewrite (rstrip_app_space _ _ Hws). }
  split; [exact H|]. intros lines. unfold main. f_equal.
  generalize init_acc.
  induction lines as [|raw lines IH]; intros st; [reflexivity|].
  cbn [map loop]. rewrite (H st raw [Re.newline] eq_refl).
  destruct (loop_body st raw) as [st1|e]; [|reflexivity]. cbn [bind].
  apply IH.
Qed.

Lemma trailing_whitespace_is_ignored_witness :
  loop_body init_acc (py "- one" ++ py "   ") = loop_body init_acc (py "- one").
Proof.
  apply (proj1 trailing_whitespace_is_ignored). reflexivity.
Defined.

(** X10.  An input of blank lines only (empty, or whitespace only) gives
    one <p> per line and nothing else; the empty input gives the empty
    text. *)
Theorem blank_lines_give_paragraph_marks :
  forall lines,
    Forall (fun raw => forallb isspace raw = true) lines ->
    main lines = Ok (join_lines (repeat (py "<p>") (length lines))).
Proof.
  intros lines H. unfold main.
  enough (E : forall html,
             loop lines (mk_acc html None)
             = Ok (mk_acc (html ++ repeat (py "<p>") (length lines)) None)).
  { unfold init_acc. rewrite E. reflexivity. }
  induction H as [|raw lines Hraw _ IH]; intros html.
  - cbn [loop length repeat]. now rewrite app_nil_r.
  - cbn [loop length repeat]. unfold loop_body.
    apply rstrip_nil in Hraw. rewrite Hraw.
    change (process_markdown_line []) with (Ok (PTuple [] (py "newline"))).
    cbn [bind unpack2 fst snd].
    change (dispatch (mk_acc html None) [] (py "newline"))
      with (mk_acc (html ++ [py "<p>"]) None).
    rewrite IH. now rewrite <- app_assoc.
Qed.

Lemma blank_lines_give_paragraph_marks_witness :
  main [py ""; py "  "; [9; 0xA0]]
  = Ok (join_lines [py "<p>"; py "<p>"; py "<p>"]).
Proof.
  apply (blank_lines_give_paragraph_marks [py ""; py "  "; [9; 0xA0]]).
  repeat constructor.
Defined.

(** ** The size of the output *)

(** The lines put out so far, and one more for a list still open. *)
Definition pending_size (st : acc) : nat :=
  length (html_lines st) + (if truthy_opt (list_type st) then 1 else 0).

Lemma str_eqb_true a b : str_eqb a b = true -> a = b.
Proof.
  unfold str_eqb. destruct (list_eq_dec N.eq_dec a b); [auto|discriminate].
Qed.

Lemma finish_length st : length (finish st) = pending_size st.
Proof.
  destruct st as [html [s|]]; unfold finish, pending_size;
    cbn [html_lines list_type close_if_open truthy_opt]; [|lia].
  destruct (truthy s); [|lia]. rewrite length_app. simpl. lia.
Qed.

Lemma dispatch_size st frag tag :
  (pending_size (dispatch st frag tag) <= pending_size st + 2)%nat.
Proof.
  destruct st as [html lt]. unfold dispatch, pending_size.
  destruct (str_eqb tag (py "ul"));
    [|destruct (str_eqb tag (py "ol"));
      [|destruct (str_eqb tag (py "newline"))]];
    cbn [html_lines list_type];
    destruct lt as [s|]; cbn [differs close_if_open truthy_opt];
    try destruct (str_eqb s _); try destruct (truthy s);
    cbn [negb truthy_opt truthy py map list_ascii_of_string];
    rewrite ?length_app; simpl; try destruct (truthy s); lia.
Qed.

(** A list is open only when a line was put out. *)
Definition open_after_output (st : acc) : Prop :=
  truthy_opt (list_type st) = true -> html_lines st <> [].

Lemma dispatch_nonempty st frag tag :
  open_after_output st ->
  html_lines (dispatch st frag tag) <> []
  /\ open_after_output (dispatch st frag tag).
Proof.
  destruct st as [html lt]. unfold open_after_output.
  cbn [html_lines list_type]. intros Hopen.
  assert (Hne : forall (l : list str) x, l ++ [x] <> []).
  { intros l x H. apply app_eq_nil in H as [_ H]. discriminate H. }
  assert (E : html_lines (dispatch (mk_acc html lt) frag tag) <> []).
  { unfold dispatch.
    destruct (str_eqb tag (py "ul"));
      [|destruct (str_eqb tag (py "ol"));
        [|destruct (str_eqb tag (py "newline"))]];
      cbn [html_lines]; try apply Hne.
    - destruct lt as [s|]; cbn [differs]; [|apply Hne].
      destruct (str_eqb s (py "ul")) eqn:Hs; cbn [negb]; [|apply Hne].
      apply str_eqb_true in Hs. subst s. now apply Hopen.
    - destruct lt as [s|]; cbn [differs]; [|apply Hne].
      destruct (str_eqb s (py "ol")) eqn:Hs; cbn [negb]; [|apply Hne].
      apply str_eqb_true in Hs. subst s. now apply Hopen. }
  split; [exact E|]. intros _. exact E.
Qed.

Lemma loop_body_nonempty st raw st' :
  open_after_output st -> loop_body st raw = Ok st' ->
  html_lines st' <> [] /\ open_after_output st'.
Proof.
  intros Hopen H. rewrite loop_body_unpacked in H.
  destruct (unpacked raw) as [p|]; [|discriminate]. cbn [bind] in H.
  assert (E : st' = dispatch st (fst p) (snd p)) by congruence.
  rewrite E. now apply dispatch_nonempty.
Qed.

Lemma loop_body_size st raw st' :
  loop_body st raw = Ok st' -> (pending_size st' <= pending_size st + 2)%nat.
Proof.
  intros H. rewrite loop_body_unpacked in H.
  destruct (unpacked raw) as [p|]; [|discriminate]. cbn [bind] in H.
  assert (E : st' = dispatch st (fst p) (snd p)) by congruence.
  rewrite E. apply dispatch_size.
Qed.

Lemma loop_nonempty lines : forall st0 st,
  html_lines st0 <> [] -> open_after_output st0 ->
  loop lines st0 = Ok st -> finish st <> [].
Proof.
  induction lines as [|raw lines IH]; intros st0 st Hne Hopen; cbn [loop].
  - intros H. assert (E : st = st0) by congruence. rewrite E.
    intros F. apply (f_equal (@length str)) in F.
    rewrite finish_length in F. unfold pending_size in F.
    destruct (html_lines st0); [now destruct Hne|]. simpl in F. lia.
  - intros H. apply bind_ok in H as (st1 & H1 & H).
    destruct (loop_body_nonempty _ _ _ Hopen H1) as [Hne1 Hopen1].
    exact (IH _ _ Hne1 Hopen1 H).
Qed.

(** X11.  [main] puts out at most two lines per line read, the closing tag
    after the loop included, and at least one line when the input is not
    empty. *)
Theorem output_size_bounds :
  forall lines st,
    loop lines init_acc = Ok st ->
    (length (finish st) <= 2 * length lines)%nat
    /\ (lines <> [] -> finish st <> []).
Proof.
  intros lines st H. split.
  - rewrite finish_length.
    enough (E : forall st0, loop lines st0 = Ok st ->
                (pending_size st <= pending_size st0 + 2 * length lines)%nat).
    { exact (E _ H). }
    clear H. induction lines as [|raw lines IH]; intros st0; cbn [loop].
    + intros H. assert (E : st = st0) by congruence. rewrite E. lia.
    + intros H. apply bind_ok in H as (st1 & H1 & H).
      specialize (IH _ H). pose proof (loop_body_size _ _ _ H1).
      simpl length. lia.
  - destruct lines as [|raw lines]; [congruence|]. intros _.
    cbn [loop] in H. apply bind_ok in H as (st1 & H1 & H).
    assert (H0 : open_after_output init_acc) by discriminate.
    destruct (loop_body_nonempty _ _ _ H0 H1) as [Hne Hopen].
    exact (loop_nonempty _ _ _ Hne Hopen H).
Qed.

Lemma output_size_bounds_witness :
  (length [py "<ul>"; py "</ul>"; py "<ol>"; py "</ol>"; py "<ul>"; py "</ul>"]
   <= 2 * 3)%nat.
Proof.
  exact (proj1 (output_size_bounds [py "- a"; py "* b"; py "- c"]
                  (mk_acc [py "<ul>"; py "</ul>"; py "<ol>"; py "</ol>";
                           py "<ul>"] (Some (py "ul")))
                  eq_refl)).
Defined.

(** ** The list left open *)

(** The list a line leaves open: "ul" after a dash item, "ol" after a star
    item, none after any other line. *)
Definition list_after (raw : str) : option str :=
  if truthy_match (Re.match_item (chr "-") (rstrip raw)) then Some (py "ul")
  else if truthy_match (Re.match_item (chr "*") (rstrip raw))
       then Some (py "ol")
       else None.

Lemma loop_body_list_type st raw st' :
  invariant st -> loop_body st raw = Ok st' -> list_type st' = list_after raw.
Proof.
  intros (o & Hlt & _) H. unfold list_after.
  destruct (Re.match_heading (rstrip raw)) as [[g1 g2]|] eqn:Hh.
  { rewrite heading_line_raises in H by congruence. discriminate H. }
  assert (Hnone : forall frag tag,
             tag <> py "ul" -> tag <> py "ol" ->
             list_type (dispatch st frag tag) = None).
  { intros frag tag H1 H2. destruct st as [html lt]. simpl in Hlt. subst lt.
    unfold dispatch. rewrite !str_eqb_neq by assumption.
    destruct (str_eqb tag (py "newline")); now destruct o as [[|]|]. }
  unfold loop_body, process_markdown_line in H. rewrite Hh in H.
  destruct (truthy_match (Re.match_item (chr "-") (rstrip raw))).
  { cbn [bind unpack2 fst snd] in H.
    assert (E : st' = dispatch st (py "<li>" ++ skipn 2 (rstrip raw)
                                      ++ py "</li>") (py "ul"))
      by congruence.
    rewrite E. now destruct st. }
  destruct (truthy_match (Re.match_item (chr "*") (rstrip raw))).
  { cbn [bind unpack2 fst snd] in H.
    assert (E : st' = dispatch st (py "<li>" ++ skipn 2 (rstrip raw)
                                      ++ py "</li>") (py "ol"))
      by congruence.
    rewrite E. now destruct st. }
  destruct (substitute (rstrip raw)) as [t|e]; [|discriminate H].
  cbn [bind] in H. unfold paragraph in H.
  destruct (negb (truthy (strip t))).
  - cbn [bind unpack2 fst snd] in H.
    assert (E : st' = dispatch st [] (py "newline")) by congruence.
    rewrite E. apply Hnone; discriminate.
  - destruct t as [|a [|b [|c t]]]; try discriminate H.
    cbn [bind unpack2 fst snd] in H.
    assert (E : st' = dispatch st [a] [b]) by congruence.
    rewrite E. apply Hnone; intros F; discriminate F.
Qed.

(** X12.  The list left open depends on the last line read alone: after a
    dash item "ul" is open, after a star item "ol", after any other line
    that goes through the loop none; so [main] ends its output with a
    closing tag exactly when the last line is a list item. *)
Theorem open_list_follows_last_line :
  forall lines raw st,
    loop (lines ++ [raw]) init_acc = Ok st ->
    list_type st = list_after raw
    /\ finish st = close_if_open (html_lines st) (list_after raw).
Proof.
  intros lines raw st H. rewrite loop_app in H.
  apply bind_ok in H as (st1 & H1 & H). cbn [loop] in H.
  apply bind_ok in H as (st2 & H2 & H).
  assert (E : st = st2) by congruence. subst st2.
  assert (Hinv : invariant st1).
  { eapply loop_invariant; [|exact H1]. exists None. split; reflexivity. }
  pose proof (loop_body_list_type _ _ _ Hinv H2) as Hlt.
  split; [exact Hlt|]. unfold finish. now rewrite Hlt.
Qed.

Lemma open_list_follows_last_line_witness :
  list_type (mk_acc [py "<ul>"; py "</ul>"; py "<p>"; py "<ol>"]
                    (Some (py "ol")))
  = list_after (py "* b").
Proof.
  exact (proj1 (open_list_follows_last_line [py "- a"; py ""] (py "* b")
                  (mk_acc [py "<ul>"; py "</ul>"; py "<p>"; py "<ol>"]
                          (Some (py "ol")))
                  eq_refl)).
Defined.

(** * The command line: main with its arguments and files

    The rest of [main]: the argument count, the test of the input path, the
    reading, the writing and the exit status.  The operating system is
    given by its answers to the three calls [main] makes; what the run
    does to the outside is the list of its events, in order. *)

(** What [open], [readlines] and [write] can raise. *)
Inductive io_exn := OSError | UnicodeError.

Inductive io_result (A : Type) : Type :=
| IoOk (a : A)
| IoRaise (e : io_exn).
Arguments IoOk {A} a.
Arguments IoRaise {A} e.

Record os := mk_os {
  (** [os.path.isfile(path)] *)
  isfile : str -> bool;
  (** [open(path, 'r')] and [readlines()] *)
  readlines : str -> io_result (list str);
  (** [open(path, 'w')] and [write(text)]: the exception, if any *)
  write : str -> str -> option io_exn }.

Inductive event :=
| Stderr (text : str)
| IsFile (path : str)
| ReadLines (path : str)
| WriteText (path text : str).

(** How the run ends: [sys.exit(status)], or an exception nobody catches. *)
Inductive ending :=
| Exit (status : N)
| Uncaught (e : exn)
| UncaughtIO (e : io_exn).

(** [print(text, file=sys.stderr)] *)
Definition print_stderr (text : str) : list event :=
  [Stderr (text ++ [Re.newline])].

Definition usage : list event :=
  print_stderr (py "Usage: ./markdown2html.py README.md README.html").

Definition file_missing (filename : str) : list event :=
  print_stderr (py "Missing " ++ filename).

(** The whole of [main] on [sys.argv]. *)
Definition markdown2html (argv : list str) (w : os) : list event * ending :=
  if (length argv <? 3)%nat then (usage, Exit 1)
  else
    let markdown_file := nth 1 argv [] in
    let html_file := nth 2 argv [] in
    if negb (isfile w markdown_file) then
      (IsFile markdown_file :: file_missing markdown_file, Exit 1)
    else
      match readlines w markdown_file with
      | IoRaise e =>
          ([IsFile markdown_file; ReadLines markdown_file], UncaughtIO e)
      | IoOk lines =>
          match main lines with
          | Raise e =>
              ([IsFile markdown_file; ReadLines markdown_file], Uncaught e)
          | Ok text =>
              ([IsFile markdown_file; ReadLines markdown_file;
                WriteText html_file text],
               match write w html_file text with
               | Some e => UncaughtIO e
               | None => Exit 0
               end)
          end
      end.

(** The event reads or writes a file. *)
Definition opens_file (e : event) : bool :=
  match e with
  | ReadLines _ | WriteText _ _ => true
  | Stderr _ | IsFile _ => false
  end.

Definition is_write (e : event) : bool :=
  match e with WriteText _ _ => true | _ => false end.

Definition is_stderr (e : event) : bool :=
  match e with Stderr _ => true | _ => false end.

(** An operating system for the examples: one input file. *)
Definition one_file (path : str) (lines : list str) : os :=
  mk_os (fun p => str_eqb p path)
        (fun p => if str_eqb p path then IoOk lines else IoRaise OSError)
        (fun _ _ => None).

(** The exit status of the process: that given to [sys.exit], and 1 when
    the run ends by an exception nobody catches. *)
Definition process_status (e : ending) : N :=
  match e with
  | Exit status => status
  | Uncaught _ | UncaughtIO _ => 1
  end.

(** X13.  [main] calls [sys.exit(1)] in two cases only: with fewer than two
    arguments after the program name, when the usage line is printed on
    the standard error and nothing else happens; and when the input path
    is not a file, when the path is tested and the line "Missing" and the
    path is printed.  In both no file is opened.  Every other run ends by
    [sys.exit(0)] or by an uncaught exception, after the input was tested
    and its reading tried and with nothing printed by [main]; so the
    status of the process is 0 or 1, and it is 1 in the two cases above and
    on every uncaught exception. *)
Theorem exit_status_one :
  forall argv w,
    ((length argv < 3)%nat -> markdown2html argv w = (usage, Exit 1))
    /\ ((3 <= length argv)%nat -> isfile w (nth 1 argv []) = false ->
        markdown2html argv w
        = ([IsFile (nth 1 argv []);
            Stderr (py "Missing " ++ nth 1 argv [] ++ [Re.newline])],
           Exit 1))
    /\ (snd (markdown2html argv w) = Exit 1 ->
        ((length argv < 3)%nat
         \/ ((3 <= length argv)%nat /\ isfile w (nth 1 argv []) = false))
        /\ forallb (fun e => negb (opens_file e))
             (fst (markdown2html argv w)) = true)
    /\ (snd (markdown2html argv w) = Exit 1
        \/ snd (markdown2html argv w) = Exit 0
        \/ (((exists e, snd (markdown2html argv w) = Uncaught e)
             \/ (exists e, snd (markdown2html argv w) = UncaughtIO e))
            /\ (3 <= length argv)%nat
            /\ isfile w (nth 1 argv []) = true
            /\ In (ReadLines (nth 1 argv [])) (fst (markdown2html argv w))
            /\ forallb (fun e => negb (is_stderr e))
                 (fst (markdown2html argv w)) = true))
    /\ (process_status (snd (markdown2html argv w)) = 0
        <-> snd (markdown2html argv w) = Exit 0)
    /\ (process_status (snd (markdown2html argv w)) = 1
        <-> snd (markdown2html argv w) <> Exit 0).
Proof.
  intros argv w. unfold markdown2html.
  destruct (Nat.ltb_spec (length argv) 3) as [Hlt|Hge].
  { split; [reflexivity|]. split; [lia|]. split.
    - intros _. split; [now left|reflexivity].
    - cbn. split; [now left|]. split; split; congruence. }
  split; [lia|]. split.
  { intros _ Hf. rewrite Hf. cbn [negb]. unfold file_missing, print_stderr.
    now rewrite <- app_assoc. }
  destruct (isfile w (nth 1 argv [])) eqn:Hf; cbn [negb].
  2:{ split; [intros _; split; [now right|reflexivity]|].
      cbn. split; [now left|]. split; split; congruence. }
  destruct (readlines w (nth 1 argv [])) as [lines|e].
  2:{ split; [discriminate|]. cbn. split.
      - right; right. split; [right; now exists e|]. tauto.
      - split; split; congruence. }
  destruct (main lines) as [text|e].
  2:{ split; [discriminate|]. cbn. split.
      - right; right. split; [left; now exists e|]. tauto.
      - split; split; congruence. }
  cbn [fst snd].
  destruct (write w (nth 2 argv []) text) as [e|].
  - split; [discriminate|]. cbn. split.
    + right; right. split; [right; now exists e|]. tauto.
    + split; split; congruence.
  - split; [discriminate|]. cbn. split; [now right; left|].
    split; split; congruence.
Qed.

Lemma exit_status_one_witness :
  markdown2html [py "./markdown2html.py"; py "README.md"]
    (one_file (py "README.md") []) = (usage, Exit 1)
  /\ markdown2html [py "./markdown2html.py"; py "a.md"; py "a.html"]
       (one_file (py "README.md") [])
     = ([IsFile (py "a.md"); Stderr (py "Missing a.md" ++ [Re.newline])],
        Exit 1).
Proof.
  split.
  - apply (proj1 (exit_status_one _ _)). simpl. lia.
  - apply (proj1 (proj2 (exit_status_one
                           [py "./markdown2html.py"; py "a.md"; py "a.html"]
                           (one_file (py "README.md") [])))).
    + simpl. lia.
    + reflexivity.
Defined.

(** X14.  The exit status is 0 exactly when there are two arguments or
    more, the input path is a file, it is read, every line goes through
    the loop, and the text is written.  The run then tests and reads the
    input, writes the output once and prints nothing; the text written is
    the join of correctly bracketed lines, each a tag or a single
    character. *)
Theorem exit_status_zero :
  forall argv w,
    (snd (markdown2html argv w) = Exit 0
     <-> (3 <= length argv)%nat
         /\ isfile w (nth 1 argv []) = true
         /\ exists lines text,
              readlines w (nth 1 argv []) = IoOk lines
              /\ main lines = Ok text
              /\ write w (nth 2 argv []) text = None)
    /\ (snd (markdown2html argv w) = Exit 0 ->
        exists out,
          fst (markdown2html argv w)
          = [IsFile (nth 1 argv []); ReadLines (nth 1 argv []);
             WriteText (nth 2 argv []) (join_lines out)]
          /\ bracketed out /\ Forall tag_or_character out).
Proof.
  intros argv w. unfold markdown2html.
  destruct (Nat.ltb_spec (length argv) 3) as [Hlt|Hge].
  { split; [split; [discriminate|lia]|discriminate]. }
  destruct (isfile w (nth 1 argv [])) eqn:Hf; cbn [negb].
  2:{ split; [split; [discriminate|]|discriminate].
      intros (_ & H & _). discriminate H. }
  destruct (readlines w (nth 1 argv [])) as [lines|e].
  2:{ split; [split; [discriminate|]|discriminate].
      intros (_ & _ & l & t & H & _). discriminate H. }
  destruct (main lines) as [text|e] eqn:Hmain.
  2:{ split; [split; [discriminate|]|discriminate].
      intros (_ & _ & l & t & [= <-] & H & _). congruence. }
  cbn [fst snd].
  destruct (write w (nth 2 argv []) text) as [e|] eqn:Hw.
  { split; [split; [discriminate|]|discriminate].
    intros (_ & _ & l & t & [= <-] & Ht & H).
    assert (t = text) by congruence. subst t. congruence. }
  split.
  - split; [intros _|reflexivity]. split; [exact Hge|].
    split; [reflexivity|]. exists lines, text. auto.
  - intros _. unfold main in Hmain.
    apply bind_ok in Hmain as (st & Hloop & E).
    exists (finish st). split; [congruence|]. split.
    + apply finish_bracketed. eapply loop_invariant; [|exact Hloop].
      exists None. split; reflexivity.
    + exact (finish_alphabet _ (loop_alphabet _ _ _ init_alphabet Hloop)).
Qed.

Lemma exit_status_zero_witness :
  snd (markdown2html [py "./markdown2html.py"; py "README.md"; py "out.html"]
         (one_file (py "README.md") [py "- a"; py ""; py "hi"]))
  = Exit 0.
Proof.
  apply (proj1 (exit_status_zero _ _)). split; [simpl; lia|].
  split; [reflexivity|]. eexists. eexists.
  split; [reflexivity|]. split; reflexivity.
Defined.

(** X15.  What the run touches.  It reads no path but its first argument,
    and only after the test found a file there; it writes no path but its
    second argument, once at most, and only the text [main] returned for
    the lines read: when a line makes the loop raise, nothing is written
    and the run ends by that exception. *)
Theorem files_touched :
  forall argv w,
    (forall path, In (ReadLines path) (fst (markdown2html argv w)) ->
                  path = nth 1 argv [] /\ isfile w path = true)
    /\ (forall path text,
          In (WriteText path text) (fst (markdown2html argv w)) ->
          path = nth 2 argv []
          /\ exists lines, readlines w (nth 1 argv []) = IoOk lines
                           /\ main lines = Ok text)
    /\ (length (filter is_write (fst (markdown2html argv w))) <= 1)%nat
    /\ (forall lines e,
          (3 <= length argv)%nat ->
          isfile w (nth 1 argv []) = true ->
          readlines w (nth 1 argv []) = IoOk lines ->
          main lines = Raise e ->
          markdown2html argv w
          = ([IsFile (nth 1 argv []); ReadLines (nth 1 argv [])],
             Uncaught e)).
Proof.
  intros argv w. unfold markdown2html.
  destruct (Nat.ltb_spec (length argv) 3) as [Hlt|Hge].
  { cbn. repeat split; try lia; intros; intuition discriminate. }
  destruct (isfile w (nth 1 argv [])) eqn:Hf; cbn [negb].
  2:{ cbn. repeat split; try lia; intros; try discriminate;
        intuition discriminate. }
  destruct (readlines w (nth 1 argv [])) as [lines|e].
  2:{ cbn. repeat split; try lia; intros; try discriminate;
        try (intuition congruence). }
  destruct (main lines) as [text|e] eqn:Hmain.
  2:{ cbn. repeat split; try lia; intros; try (intuition congruence). }
  cbn. repeat split; try lia; intros; try (intuition congruence).
  destruct H as [H|[H|[H|[]]]]; try discriminate.
  injection H as _ <-. eauto.
Qed.

Lemma files_touched_witness :
  markdown2html [py "./markdown2html.py"; py "README.md"; py "out.html"]
    (one_file (py "README.md") [py "- a"; py "# Title"])
  = ([IsFile (py "README.md"); ReadLines (py "README.md")],
     Uncaught ValueError).
Proof.
  apply (proj2 (proj2 (proj2 (files_touched
           [py "./markdown2html.py"; py "README.md"; py "out.html"]
           (one_file (py "README.md") [py "- a"; py "# Title"]))))
           [py "- a"; py "# Title"] ValueError).
  - simpl. lia.
  - reflexivity.
  - reflexivity.
  - reflexivity.
Defined.
